(** * Wildfire risk engine: a shallow embedding of [src/lib/dangerLevels.ts]

    The development follows the parts of the source file:
    threshold classification (PART 2), historical record loading (PART 3),
    weighting and penalty functions (PART 4), the scoring function (PART 5),
    the [getWildfireRisk] entry point (PART 6) and the active-fire check
    (PART 7).

    Modelling conventions.
    - A JavaScript [number] is an exact rational ([Q]).  [NaN], the
      infinities and binary rounding are outside the model; every
      comparison of the source is the corresponding decidable comparison
      on [Q].  Equalities between numbers are stated with [==].
    - An optional field ([airQuality?: number]) is an [option].
    - The JavaScript runtime and the modules that are not part of the
      scoring engine ([Date], [parseInt], [calculateDistance] of
      [./utils]) are an interface, class [Runtime]; every theorem holds
      for every implementation of it.
    - The wall clock, the files under [public/], the module-level store
      and the response of the active-fire feed are explicit arguments.
      A call reads the clock several times within a few milliseconds; the
      model gives the call one reading, [now].
    - The text written to the console is not modelled. *)

From Stdlib Require Import ZArith QArith Qround Lia Lqa List String Ascii Bool.
From Stdlib Require Import DecimalString.
From Stdlib Require Import Sorting.Sorted Sorting.Permutation.
From stdpp Require Import gmap strings.
Import ListNotations.

Open Scope Q_scope.

(** ** Numbers *)

Definition num_ge (a b : Q) : bool := Qle_bool b a.
Definition num_le (a b : Q) : bool := Qle_bool a b.
Definition num_gt (a b : Q) : bool := negb (Qle_bool a b).
Definition num_lt (a b : Q) : bool := negb (Qle_bool b a).

Infix ">=?" := num_ge (at level 70, no associativity) : Q_scope.
Infix "<=?" := num_le (at level 70, no associativity) : Q_scope.
Infix ">?" := num_gt (at level 70, no associativity) : Q_scope.
Infix "<?" := num_lt (at level 70, no associativity) : Q_scope.

(** ** Data model (PART 1 of the source) *)

Inductive DangerLevel : Set :=
  | extreme
  | very_high
  | high
  | medium
  | low
  | normal
  | no_risk.

#[global] Instance DangerLevel_eq_dec : EqDecision DangerLevel.
Proof. solve_decision. Defined.

(** The string a level is printed as in template literals. *)
Definition levelString (l : DangerLevel) : string :=
  match l with
  | extreme => "extreme"
  | very_high => "very high"
  | high => "high"
  | medium => "medium"
  | low => "low"
  | normal => "normal"
  | no_risk => "no risk"
  end.

Record LatLng : Set := { lat : Q; lng : Q }.

Record EnvironmentalData : Set := {
  temperature : Q;
  airQuality : option Q;
  windSpeed : option Q;
  humidity : option Q;
  drynessIndex : option Q;
  timeOfDay : option Q;
  location : LatLng
}.

Record DangerAssessment : Set := {
  level : DangerLevel;
  description : string
}.

(** ** PART 2: basic threshold logic *)

(** The literal array [dangerLevels], declared identically in
    [assessDangerLevel] and in [determineRiskLevel]. *)
Definition dangerLevels : list DangerLevel :=
  [no_risk; normal; low; medium; high; very_high; extreme].

(** [Array.prototype.indexOf]: the first position of [x], or [-1]. *)
Fixpoint indexOf_from (l : list DangerLevel) (x : DangerLevel) (i : Z) : Z :=
  match l with
  | [] => (-1)%Z
  | y :: t => if decide (y = x) then i else indexOf_from t x (i + 1)%Z
  end.

Definition indexOf (l : list DangerLevel) (x : DangerLevel) : Z :=
  indexOf_from l x 0%Z.

(** [dangerLevels[i]]; the index is always in range where the source
    reads the array (lemma [indexOf_dangerLevels_range]), so the default
    stands for an [undefined] that never arises. *)
Definition levelAt (i : Z) : DangerLevel :=
  nth (Z.to_nat i) dangerLevels no_risk.

Definition tempLevelOf (t : Q) : DangerLevel :=
  if t >=? 60 then extreme
  else if t >=? 45 then very_high
  else if t >=? 35 then high
  else if t >=? 25 then medium
  else if t >=? 15 then low
  else if t >=? 5 then normal
  else no_risk.

Definition aqiLevelOf (aq : option Q) : DangerLevel :=
  match aq with
  | None => no_risk
  | Some a =>
      if a >=? 300 then extreme
      else if a >=? 200 then very_high
      else if a >=? 150 then high
      else if a >=? 100 then medium
      else if a >=? 50 then low
      else normal
  end.

Definition assessDangerLevel (data : EnvironmentalData) : DangerAssessment :=
  let tempLevel := tempLevelOf (temperature data) in
  let aqiLevel := aqiLevelOf (airQuality data) in
  let overallLevel :=
    levelAt (Z.max (indexOf dangerLevels tempLevel)
                   (indexOf dangerLevels aqiLevel)) in
  let description :=
    if decide (overallLevel <> no_risk)
    then ("Temperature classification: " ++ levelString tempLevel
          ++ ". AQI classification: " ++ levelString aqiLevel ++ ".")%string
    else "No significant environmental concerns detected."%string in
  {| level := overallLevel; description := description |}.

(** ** PART 6 (second half): the final level decision *)

Definition scoreBasedRisk (totalScore : Q) : DangerLevel :=
  if totalScore >=? 35 then extreme
  else if totalScore >=? 20 then very_high
  else if totalScore >=? 12 then high
  else if totalScore >=? 6 then medium
  else if totalScore >=? 2 then low
  else no_risk.

Definition determineRiskLevel (totalScore : Q)
    (basicAssessmentLevel : DangerLevel) : DangerLevel :=
  let scoreBasedIndex := indexOf dangerLevels (scoreBasedRisk totalScore) in
  let basicAssessmentIndex := indexOf dangerLevels basicAssessmentLevel in
  levelAt (Z.max scoreBasedIndex basicAssessmentIndex).

(** ** The JavaScript values read from the data files *)

(** The result of [JSON.parse]: numbers are finite, objects are maps from
    property names to values. *)
#[warnings="-register-all"]
Inductive JSValue : Type :=
  | JUndefined
  | JNull
  | JBool (b : bool)
  | JNumber (n : Q)
  | JString (s : string)
  | JArray (items : list JSValue)
  | JObject (fields : gmap string JSValue).

(** The outcome of a computation that may throw. *)
Inductive Completion (A : Type) : Type :=
  | Return (a : A)
  | Throws.
Arguments Return {A} a.
Arguments Throws {A}.

(** Sequencing, written [x ← c; k] below. *)
#[global] Instance Completion_bind : MBind Completion :=
  fun A B (k : A -> Completion B) (c : Completion A) =>
    match c with
    | Return a => k a
    | Throws => Throws
    end.

(** Property read [v.k].  Reading a property of [undefined] or [null]
    throws a [TypeError]; none of the property names read by the source is
    defined on numbers, booleans, strings or arrays. *)
Definition getProp (v : JSValue) (k : string) : Completion JSValue :=
  match v with
  | JUndefined | JNull => Throws
  | JObject fields => Return (default JUndefined (fields !! k))
  | _ => Return JUndefined
  end.

(** [!v] is [negb (truthy v)]. *)
Definition truthy (v : JSValue) : bool :=
  match v with
  | JUndefined | JNull => false
  | JBool b => b
  | JNumber n => negb (Qeq_bool n 0)
  | JString s => negb (String.eqb s "")
  | JArray _ | JObject _ => true
  end.

(** [v === undefined] *)
Definition isUndefined (v : JSValue) : bool :=
  match v with
  | JUndefined => true
  | _ => false
  end.

(** [isNaN] on a number of the model, which has no [NaN]. *)
Definition isNaN (n : Q) : bool := false.

(** *** Strings *)

Definition toLowerChar (c : ascii) : ascii :=
  let n := nat_of_ascii c in
  if ((65 <=? n) && (n <=? 90))%nat then ascii_of_nat (n + 32) else c.

Definition toUpperChar (c : ascii) : ascii :=
  let n := nat_of_ascii c in
  if ((97 <=? n) && (n <=? 122))%nat then ascii_of_nat (n - 32) else c.

Fixpoint mapString (f : ascii -> ascii) (s : string) : string :=
  match s with
  | EmptyString => EmptyString
  | String c t => String (f c) (mapString f t)
  end.

(** [toLowerCase], [toUpperCase] and [trim] on strings of ASCII
    characters. *)
Definition toLowerCase : string -> string := mapString toLowerChar.
Definition toUpperCase : string -> string := mapString toUpperChar.

Fixpoint trimStart (s : string) : string :=
  match s with
  | EmptyString => EmptyString
  | String c t => if Ascii.is_space c then trimStart t else s
  end.

Definition trim (s : string) : string :=
  String.rev (trimStart (String.rev (trimStart s))).

(** [s.includes(sub)] *)
Fixpoint includes (s sub : string) : bool :=
  String.prefix sub s
  || match s with
     | EmptyString => false
     | String _ t => includes t sub
     end.

(** [arr.includes(c)] on an array of strings *)
Definition arrayIncludes (arr : list string) (c : string) : bool :=
  existsb (String.eqb c) arr.

Fixpoint repeatChar (c : ascii) (n : nat) : string :=
  match n with
  | O => EmptyString
  | S k => String c (repeatChar c k)
  end.

(** [s.padStart(n, '0')] *)
Definition padStart0 (n : nat) (s : string) : string :=
  (repeatChar "0" (n - String.length s) ++ s)%string.

Definition stringOfInt (z : Z) : string :=
  NilZero.string_of_int (Z.to_int z).

(** [String(n)] for [n] an integer or [NaN] ([None]). *)
Definition stringOfIntOrNaN (n : option Z) : string :=
  match n with
  | Some z => stringOfInt z
  | None => "NaN"
  end.

(** ** The runtime interface *)

(** A [Date] object, through the three methods the source calls. *)
Record JSDate : Set := {
  getTime : Z;      (* milliseconds since the epoch *)
  getMonth : Z;     (* 0..11, local time *)
  getFullYear : Z   (* local time *)
}.

(** What the engine takes from its environment.  [calculateDistance] is
    the great-circle distance of [./utils], which is not part of the
    engine; [Date_parse s] is [new Date(s)], for date strings that parse. *)
Class Runtime : Type := {
  parseInt : JSValue -> option Z;
  toStringJS : JSValue -> string;
  Date_parse : string -> JSDate;
  calculateDistance : Q -> Q -> Q -> Q -> Q
}.

(** ** PART 3: historical record loading *)

Record GeoPoint : Set := { latitude : Q; longitude : Q }.

Record HistoricalFireRecord : Set := {
  fire_id : string;
  date : string;
  cause : string;
  area_burned : Q;
  severity : string;
  fire_location : GeoPoint;   (* the field [location] of the source *)
  incident_name : option string
}.

Definition unifyCause (causeVal : JSValue) : string :=
  match causeVal with
  | JString s =>
      if negb (truthy causeVal) then "Unknown"
      else
        let c := toUpperCase (trim s) in
        if arrayIncludes ["MAN"; "PERSON"; "H"]%string c then "Human"
        else if arrayIncludes ["LTG"; "LIGHTNING"]%string c then "Lightning"
        else if arrayIncludes ["SPONTANEOUS"; "SPONT"]%string c then "Spontaneous"
        else c
  | _ => "Unknown"
  end.

Definition unifySeverity (sevVal : JSValue) : string :=
  match sevVal with
  | JString s0 =>
      if negb (truthy sevVal) then "low"
      else
        let s := toLowerCase (trim s0) in
        if includes s "very low" then "low"
        else if includes s "extreme" then "extreme"
        else if includes s "very high" then "very high"
        else s
  | _ => "low"
  end.

Definition inRangeOr1 (n : option Z) (lo hi : Z) : Z :=
  match n with
  | Some k => if ((lo <=? k) && (k <=? hi))%Z then k else 1%Z
  | None => 1%Z
  end.

Section Loading.
Context {R : Runtime}.

(** Lines 145-159 of the source: the date string of a raw entry. *)
Definition unifyDate (raw : JSValue) : Completion string :=
  year ← getProp raw "Year";
  month ← getProp raw "Month";
  let hasYear :=
    negb (isUndefined year) && negb (isUndefined month) in
  if hasYear then
    day ← getProp raw "Day";
    let y := parseInt year in
    let m := parseInt month in
    let d := parseInt day in
    let safeMonth := inRangeOr1 m 1 12 in
    let safeDay := inRangeOr1 d 1 31 in
    Return (padStart0 4 (stringOfIntOrNaN y) ++ "-"
            ++ padStart0 2 (stringOfInt safeMonth) ++ "-"
            ++ padStart0 2 (stringOfInt safeDay))%string
  else
    rawDate ← getProp raw "date";
    match rawDate with
    | JString s => if truthy rawDate then Return s else Return "1970-01-01"%string
    | _ => Return "1970-01-01"%string
    end.

(** [typeof v === 'number'], with the number when there is one. *)
Definition asNumber (v : JSValue) : option Q :=
  match v with
  | JNumber n => Some n
  | _ => None
  end.

Definition unifyRecord (raw : JSValue) : Completion (option HistoricalFireRecord) :=
  dateStr ← unifyDate raw;
  rawCause ← getProp raw "cause";
  rawSeverity ← getProp raw "severity";
  let cause := unifyCause rawCause in
  let severity := unifySeverity rawSeverity in
  rawArea ← getProp raw "area_burned";
  let area :=
    match asNumber rawArea with
    | Some a => if negb (isNaN a) then a else 0
    | None => 0
    end in
  rawLocation ← getProp raw "location";
  if negb (truthy rawLocation) then Return None
  else
    rawLat ← getProp rawLocation "latitude";
    rawLng ← getProp rawLocation "longitude";
    match asNumber rawLat, asNumber rawLng with
    | Some la, Some lo =>
        rawId ← getProp raw "fire_id";
        let fireId :=
          if truthy rawId then toStringJS rawId else "unknown-id"%string in
        rawIncident ← getProp raw "incident_name";
        let incident :=
          match rawIncident with
          | JString s => if truthy rawIncident then Some s else None
          | _ => None
          end in
        Return (Some {| fire_id := fireId;
                        date := dateStr;
                        cause := cause;
                        area_burned := area;
                        severity := severity;
                        fire_location := {| latitude := la; longitude := lo |};
                        incident_name := incident |})
    | _, _ => Return None
    end.

(** The module-level variables [historicalData] and [loaded]. *)
Record Store : Type := {
  historicalData : list HistoricalFireRecord;
  loaded : bool
}.

Definition emptyStore : Store := {| historicalData := []; loaded := false |}.

(** The files under [public/]: for a file name, the array obtained by
    reading the file, replacing the [NaN] tokens and parsing it, or
    [None] when one of these steps throws or the parsed value cannot be
    iterated. *)
Definition Disk : Type := string -> option (list JSValue).

Definition files : list string :=
  ["wildfire_data_1_part1.json";
   "wildfire_data_1_part2.json";
   "wildfire_data_part1.json";
   "wildfire_data_part2.json";
   "wildfire_data_2.json"]%string.

(** The inner loop over [rawArray].  An entry on which [unifyRecord]
    throws ends the loop: the [catch] of the file takes over, and the
    records pushed so far stay. *)
Fixpoint pushRecords (rawArray : list JSValue)
    (data : list HistoricalFireRecord) : list HistoricalFireRecord :=
  match rawArray with
  | [] => data
  | raw :: rest =>
      match unifyRecord raw with
      | Throws => data
      | Return None => pushRecords rest data
      | Return (Some rec) => pushRecords rest (data ++ [rec])
      end
  end.

Definition loadFile (disk : Disk) (data : list HistoricalFireRecord)
    (fileName : string) : list HistoricalFireRecord :=
  match disk fileName with
  | Some rawArray => pushRecords rawArray data
  | None => data
  end.

Definition loadHistoricalWildfireData (disk : Disk) (st : Store) : Store :=
  if loaded st then st
  else {| historicalData := fold_left (loadFile disk) files (historicalData st);
          loaded := true |}.
End Loading.

(** The number under [raw.location.k], if there is one, and the area a
    raw entry gives: its number [area_burned], or 0 without one. *)
Definition rawCoordinate (raw : JSValue) (k : string) : option Q :=
  match getProp raw "location" with
  | Return loc =>
      match getProp loc k with
      | Return (JNumber n) => Some n
      | _ => None
      end
  | Throws => None
  end.

Definition rawArea (raw : JSValue) : Q :=
  match getProp raw "area_burned" with
  | Return (JNumber a) => a
  | _ => 0
  end.

(** ** [Array.prototype.sort] and [slice] *)

Section Sort.
Context {A : Type} (compareFn : A -> A -> Q).

(** [sort] is stable: of two elements that compare equal, the one that
    came first stays first.  [insertSorted x l] puts [x], which stood
    before every element of [l], in front of the first element it does
    not exceed. *)
Fixpoint insertSorted (x : A) (l : list A) : list A :=
  match l with
  | [] => [x]
  | y :: t => if compareFn x y <=? 0 then x :: y :: t
              else y :: insertSorted x t
  end.

Fixpoint sort (l : list A) : list A :=
  match l with
  | [] => []
  | x :: t => insertSorted x (sort t)
  end.


End Sort.

(** [arr.slice(0, n)] *)
Definition slice0 {A : Type} (n : nat) (arr : list A) : list A := firstn n arr.

(** ** PART 4: weighting and penalty functions *)

Inductive TerrainType : Set := grassland | forest | unknown.

#[global] Instance TerrainType_eq_dec : EqDecision TerrainType.
Proof. solve_decision. Defined.

Definition msInYear : Z := (1000 * 3600 * 24 * 365)%Z.

(** Cause-based weighting *)
Definition getCauseFactor (cause : string) : Q :=
  let c := toLowerCase cause in
  if String.eqb c "lightning" then 1.2
  else if String.eqb c "human" then 1.1
  else if String.eqb c "spontaneous" then 1.05
  else 1.0.

(** Distance-based weighting *)
Definition getDistanceWeight (distKm maxRadius : Q) : Q :=
  if distKm <=? 10 then 1.0
  else if distKm >=? maxRadius then 0.1
  else
    let ratio := (distKm - 10) / (maxRadius - 10) in
    1.0 - 0.9 * ratio.

Definition getPenaltyByConsecutiveCount (count : Z) : Q :=
  if (count =? 2)%Z then 0.2
  else if (count =? 3)%Z then 0.5
  else if (count >=? 4)%Z then 1.0
  else 0.

(** The [for] loop of [getConsecutiveYearPenalty] over the sorted years,
    from the pair at the head of [years] on, with the two loop variables;
    it returns their values when the loop ends. *)
Fixpoint consecutiveLoop (years : list Z) (totalPenalty : Q)
    (consecutiveCount : Z) : Q * Z :=
  match years with
  | y :: ((y' :: _) as rest) =>
      if (y' =? y + 1)%Z
      then consecutiveLoop rest totalPenalty (consecutiveCount + 1)%Z
      else
        let totalPenalty' :=
          if (consecutiveCount >=? 2)%Z
          then totalPenalty + getPenaltyByConsecutiveCount consecutiveCount
          else totalPenalty in
        consecutiveLoop rest totalPenalty' 1%Z
  | _ => (totalPenalty, consecutiveCount)
  end.

(** The addition for the final run, after the loop. *)
Definition closeRun (state : Q * Z) : Q :=
  let '(totalPenalty, consecutiveCount) := state in
  if (consecutiveCount >=? 2)%Z
  then totalPenalty + getPenaltyByConsecutiveCount consecutiveCount
  else totalPenalty.

(** [getConsecutiveYearPenalty] on the years of the fires, before they
    are sorted. *)
Definition consecutiveYearPenaltyOfYears (fireYears : list Z) : Q :=
  if (length fireYears <? 2)%nat then 0
  else
    let years := sort (fun a b => inject_Z (a - b)) fireYears in
    closeRun (consecutiveLoop years 0 1%Z).

(** The object [yearCounts] of [getOverlappingFiresPenalty], after its
    first loop. *)
Definition countYears (fireYears : list Z) : gmap Z Z :=
  fold_left
    (fun (yearCounts : gmap Z Z) (y : Z) =>
       <[y := (default 0%Z (yearCounts !! y) + 1)%Z]> yearCounts)
    fireYears ∅.

(** The second loop.  The order in which [Object.keys] lists the years
    does not matter to a sum of rationals. *)
Definition overlapPenaltyOfCounts (yearCounts : gmap Z Z) : Q :=
  map_fold
    (fun (_ : Z) (count : Z) (penalty : Q) =>
       if (count >? 1)%Z then penalty + inject_Z (count - 1) * 0.1 else penalty)
    0 yearCounts.

(** Severity weighting *)
Definition adjustSeverityForLandscape (severity : string) (yearsAgo : Z)
    (terrainType : TerrainType) : Q :=
  let s := toLowerCase severity in
  let base :=
    if includes s "extreme" || includes s "very high" then 3
    else if includes s "high" then 2
    else if includes s "medium" then 1
    else 0 in
  if bool_decide (terrainType = grassland) && (yearsAgo >? 5)%Z
  then base * 0.5
  else base.

Section Scoring.
Context {R : Runtime}.

(** The clock: what [new Date()] returns during the call. *)
Variable now : JSDate.

(** Weighted recency factor *)
Definition getRecencyFactor (dateStr : string) : Q :=
  let fireDate := Date_parse dateStr in
  let yearsAgo := inject_Z (getTime now - getTime fireDate) / inject_Z msInYear in
  if yearsAgo <=? 2 then 1.0
  else if yearsAgo <=? 5 then 0.8
  else if yearsAgo <=? 10 then 0.5
  else 0.2.

(** Region-specific seasonality factor *)
Definition getSeasonalityFactor (fireDateStr : string) (lat lng : Q) : Q :=
  let fireDate := Date_parse fireDateStr in
  let currentMonth := getMonth now in
  let fireMonth := getMonth fireDate in
  let factor := 1.0 in
  let factor := if lat >? 55 then factor * 1.05 else factor in
  let factor := if lng <? -120 then factor * 1.02 else factor in
  let factor := if (fireMonth =? currentMonth)%Z then factor * 1.15 else factor in
  let factor :=
    if ((fireMonth >=? 4) && (fireMonth <=? 8))%Z then factor * 1.1 else factor in
  factor.
End Scoring.

Section Penalties.
Context {R : Runtime}.

Definition fireYear (f : HistoricalFireRecord) : Z :=
  getFullYear (Date_parse (date f)).

(** Consecutive-year penalty *)
Definition getConsecutiveYearPenalty (fires : list HistoricalFireRecord) : Q :=
  consecutiveYearPenaltyOfYears (map fireYear fires).

(** Overlapping fires penalty *)
Definition getOverlappingFiresPenalty (fires : list HistoricalFireRecord) : Q :=
  overlapPenaltyOfCounts (countYears (map fireYear fires)).
End Penalties.

(** ** PART 5: the main scoring function *)

Section MainScoring.
Context {R : Runtime}.
Variable now : JSDate.

(** The body of the loop over [fires]: the score of one fire. *)
Definition fireScore (env : EnvironmentalData) (maxRadius : Q)
    (fire : HistoricalFireRecord) : Q :=
  let dist :=
    calculateDistance (lat (location env)) (lng (location env))
      (latitude (fire_location fire)) (longitude (fire_location fire)) in
  let recencyFactor := getRecencyFactor now (date fire) in
  let causeFactor := getCauseFactor (cause fire) in
  let seasonalityFactor :=
    getSeasonalityFactor now (date fire)
      (latitude (fire_location fire)) (longitude (fire_location fire)) in
  let distanceFactor := getDistanceWeight dist maxRadius in
  let yearsAgo := (getFullYear now - getFullYear (Date_parse (date fire)))%Z in
  let terrainType := unknown in
  let severityValue :=
    adjustSeverityForLandscape (severity fire) yearsAgo terrainType in
  let areaFactor := if area_burned fire >? 500 then 1.5 else 1.0 in
  severityValue * areaFactor * recencyFactor * causeFactor
  * seasonalityFactor * distanceFactor.

(** The additions to [total] for the real-time readings, in the order
    of the source. *)
Definition addRealTime (env : EnvironmentalData) (total : Q) : Q :=
  let total :=
    if temperature env >=? 60 then total + 20
    else if temperature env >=? 45 then total + 10
    else if temperature env >=? 35 then total + 5
    else if temperature env >=? 25 then total + 2
    else total in
  let total :=
    match airQuality env with
    | Some aq =>
        if aq >=? 300 then total + 5
        else if aq >=? 200 then total + 3
        else if aq >=? 150 then total + 2
        else if aq >=? 100 then total + 1
        else total
    | None => total
    end in
  let total :=
    match drynessIndex env with
    | Some dr =>
        if dr >=? 90 then total + 8
        else if dr >=? 80 then total + 5
        else if dr >=? 60 then total + 2
        else total
    | None => total
    end in
  let total :=
    match humidity env with
    | Some h =>
        if h <? 10 then total + 6
        else if h <? 20 then total + 3
        else if h <? 30 then total + 1
        else total
    | None => total
    end in
  let total :=
    match windSpeed env with
    | Some w =>
        if w >? 60 then total + 8
        else if w >? 40 then total + 4
        else if w >? 25 then total + 2
        else total
    | None => total
    end in
  let total :=
    match timeOfDay env with
    | Some t => if (t >=? 13) && (t <=? 17) then total + 1 else total
    | None => total
    end in
  total.

Definition computeRiskFromHistoryAndRealTime (env : EnvironmentalData)
    (fires : list HistoricalFireRecord) (maxRadius : Q) : Q :=
  let historicalScore :=
    fold_left (fun acc fire => acc + fireScore env maxRadius fire) fires 0 in
  let consecutivePenalty := getConsecutiveYearPenalty fires in
  let overlapPenalty := getOverlappingFiresPenalty fires in
  let frequencyScore := inject_Z (Z.min (Z.of_nat (length fires)) 5) in
  let total :=
    historicalScore + consecutivePenalty + overlapPenalty + frequencyScore in
  addRealTime env total.
End MainScoring.

(** ** PART 7: the active-fire GeoJSON check *)

(** A position [[lng, lat]] and a linear ring of positions. *)
Definition Position : Set := (Q * Q)%type.
Definition Ring : Set := list Position.

(** The member [coordinates] of a geometry, with the [type] that tells
    how deep its arrays nest. *)
Inductive Coordinates : Set :=
  | PolygonCoordinates (coords : list Ring)
  | MultiPolygonCoordinates (coords : list (list Ring))
  | OtherCoordinates (type : string).

(** [None] is a member that is absent or [null]. *)
Record Geometry : Set := { coordinates : option Coordinates }.
Record GeoJsonFeature : Set := { geometry : option Geometry }.

(** What [fetch] and [res.json()] give: the fetch rejects, or there is a
    response with its [ok] flag; reading the body throws (it is not JSON,
    or it is [null], of which no member can be read), or it gives a value
    whose member [features] is an array ([Some]) or not ([None]). *)
Inductive FeedResponse : Set :=
  | FetchRejected
  | HttpResponse (ok : bool) (body : Completion (option (list GeoJsonFeature))).

(** A box [[minLat, minLng, maxLat, maxLng]]. *)
Definition BoundingBox : Set := (Q * Q * Q * Q)%type.

Definition initialBox : BoundingBox := (9999, 9999, -9999, -9999).

(** The four updates done for one position. *)
Definition extendBox (box : BoundingBox) (p : Position) : BoundingBox :=
  let '(minLat, minLng, maxLat, maxLng) := box in
  let '(lng, lat) := p in
  let minLat := if lat <? minLat then lat else minLat in
  let maxLat := if lat >? maxLat then lat else maxLat in
  let minLng := if lng <? minLng then lng else minLng in
  let maxLng := if lng >? maxLng then lng else maxLng in
  (minLat, minLng, maxLat, maxLng).

(** [coords[0]] of an empty array is [undefined], and iterating it throws. *)
Definition getBoundingBox (coords : Coordinates) : Completion BoundingBox :=
  match coords with
  | PolygonCoordinates rings =>
      match rings with
      | [] => Throws
      | ring :: _ => Return (fold_left extendBox ring initialBox)
      end
  | MultiPolygonCoordinates polygons =>
      Return
        (fold_left
           (fun box polygon =>
              fold_left (fun box ring => fold_left extendBox ring box) polygon box)
           polygons initialBox)
  | OtherCoordinates _ => Return initialBox
  end.

Definition isPointInBoundingBox (lat lng : Q) (box : BoundingBox) : bool :=
  let '(minLat, minLng, maxLat, maxLng) := box in
  (lat >=? minLat) && (lat <=? maxLat) && (lng >=? minLng) && (lng <=? maxLng).

(** The loop over [geojson.features]. *)
Fixpoint scanFeatures (lat lng : Q) (features : list GeoJsonFeature) : Completion Z :=
  match features with
  | [] => Return 0%Z
  | feature :: rest =>
      match geometry feature with
      | None => scanFeatures lat lng rest
      | Some geom =>
          match coordinates geom with
          | None => scanFeatures lat lng rest
          | Some coords =>
              boundingBox ← getBoundingBox coords;
              if isPointInBoundingBox lat lng boundingBox then Return 5%Z
              else scanFeatures lat lng rest
          end
      end
  end.

(** The body of the [try] block. *)
Definition tryActiveFirePenalty (feed : FeedResponse) (env : EnvironmentalData)
    : Completion Z :=
  match feed with
  | FetchRejected => Throws
  | HttpResponse ok body =>
      if negb ok then Return 0%Z
      else
        geojson ← body;
        match geojson with
        | None => Return 0%Z
        | Some features =>
            scanFeatures (lat (location env)) (lng (location env)) features
        end
  end.

(** [try { ... } catch (error) { return 0 }] *)
Definition getActiveFirePenalty (feed : FeedResponse) (env : EnvironmentalData) : Z :=
  match tryActiveFirePenalty feed env with
  | Return penalty => penalty
  | Throws => 0%Z
  end.

(** The coordinates a feature is tested on, if it has any. *)
Definition featureCoordinates (feature : GeoJsonFeature) : option Coordinates :=
  match geometry feature with
  | Some geom => coordinates geom
  | None => None
  end.

(** The computation of the box of the feature throws. *)
Definition featureThrows (feature : GeoJsonFeature) : bool :=
  match featureCoordinates feature with
  | Some coords =>
      match getBoundingBox coords with
      | Throws => true
      | Return _ => false
      end
  | None => false
  end.

(** The feature has a box, and the point lies in it, bounds included. *)
Definition featureContains (lat lng : Q) (feature : GeoJsonFeature) : bool :=
  match featureCoordinates feature with
  | Some coords =>
      match getBoundingBox coords with
      | Return box => isPointInBoundingBox lat lng box
      | Throws => false
      end
  | None => false
  end.

(** The positions the box of a geometry is computed from: the first ring
    of a polygon, every ring of every polygon of a multi-polygon. *)
Definition positionsOf (coords : Coordinates) : list Position :=
  match coords with
  | PolygonCoordinates rings => match rings with [] => [] | ring :: _ => ring end
  | MultiPolygonCoordinates polygons => concat (concat polygons)
  | OtherCoordinates _ => []
  end.

(** The point lies between the least and the greatest latitude, and
    between the least and the greatest longitude, of the positions. *)
Definition inExtent (lat lng : Q) (ps : list Position) : Prop :=
  (exists p, In p ps /\ snd p <= lat) /\ (exists p, In p ps /\ lat <= snd p)
  /\ (exists p, In p ps /\ fst p <= lng) /\ (exists p, In p ps /\ lng <= fst p).

(** ** PART 6: the [getWildfireRisk] entry point *)

Definition ACTIVE_FIRE_URL : string :=
  "https://services6.prod.bcwildfireservices.com/ubm4tcTYICKBpist/arcgis/rest/services/BCWS_FirePerimeters_PublicView/FeatureServer/0/query?returnGeometry=true&where=FIRE_STATUS%20%3C%3E%20%27Out%27&outSR=4326&outFields=*&inSR=4326&geometry=%7B%22xmin%22%3A-135%2C%22ymin%22%3A40.979898069620155%2C%22xmax%22%3A-89.99999999999999%2C%22ymax%22%3A66.51326044311188%2C%22spatialReference%22%3A%7B%22wkid%22%3A4326%7D%7D&geometryType=esriGeometryEnvelope&spatialRel=esriSpatialRelIntersects&geometryPrecision=6&resultType=tile&f=geojson".

(** [x.toFixed(2)]: the nearest multiple of 1/100, the larger one of two
    that are equally near, printed with two decimals (for the magnitudes
    below 1e21 that [toFixed] prints without an exponent). *)
Definition toFixed2 (x : Q) : string :=
  let negative := x <? 0 in
  let a := if negative then - x else x in
  let n := Qfloor (a * 100 + (1 # 2)) in
  ((if negative then "-" else "")
   ++ stringOfInt (n / 100) ++ "." ++ padStart0 2 (stringOfInt (n mod 100)))%string.

Definition newline : string := String (ascii_of_nat 10) EmptyString.

Record WildfireRisk : Set := {
  riskLevel : DangerLevel;   (* printed with [levelString] *)
  riskExplanation : string
}.

Section EntryPoint.
Context {R : Runtime}.

(** The distance the three callbacks of [getWildfireRisk] compute. *)
Definition distanceTo (env : EnvironmentalData) (f : HistoricalFireRecord) : Q :=
  calculateDistance (lat (location env)) (lng (location env))
    (latitude (fire_location f)) (longitude (fire_location f)).

(** Adaptive radius *)
Definition adaptiveRadius (env : EnvironmentalData)
    (historicalData : list HistoricalFireRecord) : Z :=
  let quickCandidate :=
    List.filter (fun f => distanceTo env f <=? 50) historicalData in
  if (20 <? length quickCandidate)%nat then 30%Z
  else if (length quickCandidate <? 5)%nat then 75%Z
  else 50%Z.

(** [candidateFires], filtered and sorted, then [nearestFires]. *)
Definition nearestFiresOf (env : EnvironmentalData)
    (historicalData : list HistoricalFireRecord) (radius : Z)
    : list HistoricalFireRecord :=
  let candidateFires :=
    List.filter (fun fire => distanceTo env fire <=? inject_Z radius)
      historicalData in
  let candidateFires :=
    sort (fun a b => distanceTo env a - distanceTo env b) candidateFires in
  slice0 15 candidateFires.

Definition activeFireNoteOf (penalty : Z) : string :=
  (newline ++ "Active Fire Penalty = " ++ stringOfInt penalty
   ++ ". Location is near/inside an active perimeter.")%string.

Definition explanationOf (radius : Z) (found : nat)
    (basicAssessment : DangerAssessment) (totalScore : Q)
    (riskLevel : DangerLevel) (activeFireNote : string) : string :=
  (newline
   ++ "      Adaptive Radius: " ++ stringOfInt radius ++ " km" ++ newline
   ++ "      Found " ++ stringOfInt (Z.of_nat found) ++ " fires within radius"
   ++ newline
   ++ "      Basic Assessment: " ++ levelString (level basicAssessment)
   ++ " (" ++ description basicAssessment ++ ")" ++ newline
   ++ "      Final Score: " ++ toFixed2 totalScore ++ " => "
   ++ levelString riskLevel ++ "." ++ activeFireNote ++ newline
   ++ "    ")%string.

(** [getWildfireRisk env], given the files on disk, the clock, the
    response of the feed and the module-level store; it returns the
    store as [loadHistoricalWildfireData] leaves it. *)
Definition getWildfireRisk (disk : Disk) (now : JSDate) (feed : FeedResponse)
    (st : Store) (env : EnvironmentalData) : WildfireRisk * Store :=
  let basicAssessment := assessDangerLevel env in
  let st := loadHistoricalWildfireData disk st in
  let radius := adaptiveRadius env (historicalData st) in
  let nearestFires := nearestFiresOf env (historicalData st) radius in
  let totalScore :=
    computeRiskFromHistoryAndRealTime now env nearestFires (inject_Z radius) in
  let '(totalScore, activeFireNote) :=
    if negb (String.eqb ACTIVE_FIRE_URL "") then
      let penalty := getActiveFirePenalty feed env in
      if (penalty >? 0)%Z
      then (totalScore + inject_Z penalty, activeFireNoteOf penalty)
      else (totalScore, ""%string)
    else (totalScore, ""%string) in
  let riskLevel := determineRiskLevel totalScore (level basicAssessment) in
  let riskExplanation :=
    explanationOf radius (length nearestFires) basicAssessment totalScore
      riskLevel activeFireNote in
  ({| riskLevel := riskLevel; riskExplanation := riskExplanation |}, st).
(** [totalScore] after the active-fire penalty. *)
Definition finalScore (disk : Disk) (now : JSDate) (feed : FeedResponse)
    (st : Store) (env : EnvironmentalData) : Q :=
  let hist := historicalData (loadHistoricalWildfireData disk st) in
  let radius := adaptiveRadius env hist in
  let base :=
    computeRiskFromHistoryAndRealTime now env (nearestFiresOf env hist radius)
      (inject_Z radius) in
  let penalty := getActiveFirePenalty feed env in
  if (penalty >? 0)%Z then base + inject_Z penalty else base.
End EntryPoint.

(** ** The consecutive-year penalty as the specification words it *)

(** The fire years, ascending, each year once. *)
Fixpoint dropRepeats (years : list Z) : list Z :=
  match years with
  | y :: ((y' :: _) as rest) =>
      if (y =? y')%Z then dropRepeats rest else y :: dropRepeats rest
  | _ => years
  end.

Definition distinctYears (fireYears : list Z) : list Z :=
  dropRepeats (sort (fun a b => inject_Z (a - b)) fireYears).

(** The maximal runs of consecutive years of an ascending list. *)
Fixpoint groupRuns (years : list Z) : list (list Z) :=
  match years with
  | [] => []
  | y :: rest =>
      match groupRuns rest with
      | (y' :: run) :: runs =>
          if (y' =? y + 1)%Z then (y :: y' :: run) :: runs
          else [y] :: (y' :: run) :: runs
      | _ => [[y]]
      end
  end.

(** 0.2 for a run of exactly 2 years, 0.5 for exactly 3, 1.0 for 4 or
    more. *)
Definition runPenalty (run : list Z) : Q :=
  match length run with
  | 0%nat | 1%nat => 0
  | 2%nat => 0.2
  | 3%nat => 0.5
  | _ => 1.0
  end.

Definition sumQ (l : list Q) : Q := fold_right Qplus 0 l.

Definition specConsecutiveYearPenalty (fireYears : list Z) : Q :=
  sumQ (map runPenalty (groupRuns (distinctYears fireYears))).

(** ** A runtime for the examples *)

(** Dates in UTC, parsed from the form [YYYY-MM-DD] the store documents;
    a distance that is 0 between coincident points and about 111.19 km
    per degree along a meridian, as the great-circle distance is. *)
Module Sample.

Fixpoint digitsValue (s : string) (acc : Z) : option Z :=
  match s with
  | EmptyString => Some acc
  | String c t =>
      match Ascii.is_nat c with
      | Some d => digitsValue t (10 * acc + Z.of_nat d)%Z
      | None => None
      end
  end.

Definition parseDigits (s : string) : option Z :=
  match s with
  | EmptyString => None
  | _ => digitsValue s 0%Z
  end.

(** Days from 1970-01-01 to the civil date [y]-[m]-[d]. *)
Definition daysFromCivil (y m d : Z) : Z :=
  (let y' := if m <=? 2 then y - 1 else y in
   let era := y' / 400 in
   let yoe := y' - era * 400 in
   let doy := (153 * (if m >? 2 then m - 3 else m + 9) + 2) / 5 + d - 1 in
   let doe := yoe * 365 + yoe / 4 - yoe / 100 + doy in
   era * 146097 + doe - 719468)%Z.

Definition utcDate (y m d : Z) : JSDate :=
  {| getTime := (daysFromCivil y m d * 86400000)%Z;
     getMonth := (m - 1)%Z;
     getFullYear := y |}.

Definition parseDate (s : string) : JSDate :=
  match parseDigits (substring 0 4 s),
        parseDigits (substring 5 2 s),
        parseDigits (substring 8 2 s) with
  | Some y, Some m, Some d => utcDate y m d
  | _, _, _ => utcDate 1970 1 1
  end.

Definition parseIntValue (v : JSValue) : option Z :=
  match v with
  | JNumber n => Some (Z.quot (Qnum n) (Z.pos (Qden n)))
  | JString s => parseDigits s
  | _ => None
  end.

Definition toStringValue (v : JSValue) : string :=
  match v with
  | JString s => s
  | JNumber n => stringOfInt (Qfloor n)
  | JBool true => "true"
  | JBool false => "false"
  | JNull => "null"
  | JUndefined => "undefined"
  | JArray _ | JObject _ => "[object Object]"
  end.

Definition Qabs' (x : Q) : Q := if x <? 0 then - x else x.

Definition distance (lat1 lng1 lat2 lng2 : Q) : Q :=
  (11119 # 100) * (Qabs' (lat1 - lat2) + Qabs' (lng1 - lng2)).

Definition runtime : Runtime :=
  {| parseInt := parseIntValue;
     toStringJS := toStringValue;
     Date_parse := parseDate;
     calculateDistance := distance |}.

(** A fire of the store, by its date, severity, area, cause and place. *)
Definition fireAt (d sev : string) (area : Q) (c : string) (la lo : Q)
    : HistoricalFireRecord :=
  {| fire_id := "unknown-id";
     date := d;
     cause := c;
     area_burned := area;
     severity := sev;
     fire_location := {| latitude := la; longitude := lo |};
     incident_name := None |}.

(** A reading with the temperature only. *)
Definition envAt (t la lo : Q) : EnvironmentalData :=
  {| temperature := t;
     airQuality := None;
     windSpeed := None;
     humidity := None;
     drynessIndex := None;
     timeOfDay := None;
     location := {| lat := la; lng := lo |} |}.

(** A store that is loaded already, and a disk without files. *)
Definition storeOf (data : list HistoricalFireRecord) : Store :=
  {| historicalData := data; loaded := true |}.

Definition noDisk : Disk := fun _ => None.

Definition square (lo hi : Q) : Ring :=
  [(lo, lo); (hi, lo); (hi, hi); (lo, hi); (lo, lo)].

Definition polygonFeature (rings : list Ring) : GeoJsonFeature :=
  {| geometry := Some {| coordinates := Some (PolygonCoordinates rings) |} |}.

(** A fire of which only the date matters. *)
Definition fireOn (d : string) : HistoricalFireRecord :=
  fireAt d "low" 0 "Unknown" 50 (-100).

(** A raw entry with coordinates and a negative area, and a disk whose
    first file holds it. *)
Definition negativeAreaEntry : JSValue :=
  JObject (list_to_map
    [("area_burned"%string, JNumber (-5));
     ("location"%string,
      JObject (list_to_map [("latitude"%string, JNumber 50);
                            ("longitude"%string, JNumber (-120))]))]).

Definition negativeAreaDisk : Disk :=
  fun fileName =>
    if String.eqb fileName "wildfire_data_1_part1.json"
    then Some [negativeAreaEntry] else None.

End Sample.

(** ** The order of the levels, as the specification gives it *)

(** [no risk < normal < low < medium < high < very high < extreme] *)
Definition rank (l : DangerLevel) : nat :=
  match l with
  | no_risk => 0
  | normal => 1
  | low => 2
  | medium => 3
  | high => 4
  | very_high => 5
  | extreme => 6
  end.

Definition stronger (a b : DangerLevel) : DangerLevel :=
  if (rank a <? rank b)%nat then b else a.

(** The level a total score stands for, by the thresholds of the
    specification. *)
Definition scoreLevelSpec (s : Q) (l : DangerLevel) : Prop :=
  match l with
  | extreme => 35 <= s
  | very_high => 20 <= s /\ s < 35
  | high => 12 <= s /\ s < 20
  | medium => 6 <= s /\ s < 12
  | low => 2 <= s /\ s < 6
  | normal => False
  | no_risk => s < 2
  end.

(** ** [routes/inputData.ts]: the store of danger zones *)

(** An observation as the route keeps it.  [None] in [zone_airQuality],
    [zone_windSpeed] and [zone_humidity] is the string ['N/A']; the fields
    are those of the interface [DangerZone], with the prefix [zone_] where
    [EnvironmentalData] has a field of the same name. *)
Record DangerZone : Set := {
  zone_temperature : Q;
  zone_airQuality : option Q;
  zone_windSpeed : option Q;
  zone_humidity : option Q;
  zone_location : LatLng;
  dangerLevel : DangerLevel;
  dangerDescription : string;
  timestamp : string
}.

(** [newRecord], from the reading, the assessment and
    [new Date().toISOString()]. *)
Definition newRecordOf (envData : EnvironmentalData)
    (dangerLevelResult : DangerAssessment) (isoNow : string) : DangerZone :=
  {| zone_temperature := temperature envData;
     zone_airQuality := airQuality envData;
     zone_windSpeed := windSpeed envData;
     zone_humidity := humidity envData;
     zone_location := {| lat := lat (location envData);
                         lng := lng (location envData) |};
     dangerLevel := level dangerLevelResult;
     dangerDescription := description dangerLevelResult;
     timestamp := isoNow |}.

(** [{...old, ...newRecord}]: [newRecord] sets every key of a zone. *)
Definition spreadZones (old : option DangerZone) (newRecord : DangerZone)
    : DangerZone :=
  {| zone_temperature := zone_temperature newRecord;
     zone_airQuality := zone_airQuality newRecord;
     zone_windSpeed := zone_windSpeed newRecord;
     zone_humidity := zone_humidity newRecord;
     zone_location := zone_location newRecord;
     dangerLevel := dangerLevel newRecord;
     dangerDescription := dangerDescription newRecord;
     timestamp := timestamp newRecord |}.

(** [Array.prototype.findIndex]: the first position where [p] holds, or
    [-1]. *)
Fixpoint findIndex_from {A : Type} (p : A -> bool) (l : list A) (i : Z) : Z :=
  match l with
  | [] => (-1)%Z
  | x :: t => if p x then i else findIndex_from p t (i + 1)%Z
  end.

Definition findIndex {A : Type} (p : A -> bool) (l : list A) : Z :=
  findIndex_from p l 0%Z.

Section DangerZones.
Context {R : Runtime}.

(** The callback of [findIndex]: the zone is less than 5 km from the new
    record. *)
Definition withinFiveKm (newRecord zone : DangerZone) : bool :=
  calculateDistance (lat (zone_location zone)) (lng (zone_location zone))
    (lat (zone_location newRecord)) (lng (zone_location newRecord)) <? 5.

(** The update of [dangerZones] at the end of the [GET] handler: it
    returns the new value of the variable. *)
Definition storeDangerZone (newRecord : DangerZone)
    (dangerZones : list DangerZone) : list DangerZone :=
  let existingIndex := findIndex (withinFiveKm newRecord) dangerZones in
  if negb (existingIndex =? -1)%Z then
    let updatedZone :=
      spreadZones (dangerZones !! Z.to_nat existingIndex) newRecord in
    <[Z.to_nat existingIndex := updatedZone]> dangerZones
  else newRecord :: slice0 49 dangerZones.
End DangerZones.

(** ** [lib/pushSubscriptions.ts] *)

(** The array [subscriptions], with a subscription as an opaque value. *)
Definition addSubscription {Sub : Type} (sub : Sub) (subscriptions : list Sub)
    : list Sub :=
  subscriptions ++ [sub].

Definition getSubscriptions {Sub : Type} (subscriptions : list Sub) : list Sub :=
  subscriptions.

(** * Properties *)

(** ** Comparisons *)

Lemma num_ge_reflect (a b : Q) : reflect (b <= a) (a >=? b).
Proof.
  unfold num_ge. destruct (Qle_bool b a) eqn:E; constructor.
  - now apply Qle_bool_iff.
  - intros H. apply Qle_bool_iff in H. congruence.
Qed.

Lemma num_le_reflect (a b : Q) : reflect (a <= b) (a <=? b).
Proof. exact (num_ge_reflect b a). Qed.

Lemma num_gt_reflect (a b : Q) : reflect (b < a) (a >? b).
Proof.
  unfold num_gt. destruct (num_le_reflect a b) as [H | H];
    rewrite ?Qle_bool_iff in *; unfold num_le in *.
  - replace (Qle_bool a b) with true by (symmetry; now apply Qle_bool_iff).
    constructor. lra.
  - destruct (Qle_bool a b) eqn:E.
    + apply Qle_bool_iff in E. contradiction.
    + constructor. lra.
Qed.

Lemma num_lt_reflect (a b : Q) : reflect (a < b) (a <? b).
Proof. exact (num_gt_reflect b a). Qed.

(** Case analysis on the first comparison of the goal, turned into an
    inequality of [Q]. *)
Ltac num_case :=
  match goal with
  | |- context [?a >=? ?b] => destruct (num_ge_reflect a b)
  | |- context [?a <=? ?b] => destruct (num_le_reflect a b)
  | |- context [?a >? ?b] => destruct (num_gt_reflect a b)
  | |- context [?a <? ?b] => destruct (num_lt_reflect a b)
  end.

(** ** The level decision *)

Lemma indexOf_dangerLevels_rank (l : DangerLevel) :
  indexOf dangerLevels l = Z.of_nat (rank l).
Proof. destruct l; reflexivity. Qed.

Lemma indexOf_dangerLevels_range (l : DangerLevel) :
  (0 <= indexOf dangerLevels l < Z.of_nat (length dangerLevels))%Z.
Proof. destruct l; vm_compute; split; congruence. Qed.

Lemma levelAt_rank (l : DangerLevel) : levelAt (Z.of_nat (rank l)) = l.
Proof. destruct l; reflexivity. Qed.

(** Reading [dangerLevels] at the larger of two positions gives the
    stronger of the two levels. *)
Lemma levelAt_max (a b : DangerLevel) :
  levelAt (Z.max (indexOf dangerLevels a) (indexOf dangerLevels b)) = stronger b a.
Proof. destruct a, b; reflexivity. Qed.

Lemma stronger_rank (a b : DangerLevel) :
  rank (stronger a b) = Nat.max (rank a) (rank b).
Proof. destruct a, b; reflexivity. Qed.

Lemma stronger_either (a b : DangerLevel) : stronger a b = a \/ stronger a b = b.
Proof. unfold stronger. destruct (rank a <? rank b)%nat; auto. Qed.

Lemma scoreBasedRisk_spec (s : Q) : scoreLevelSpec s (scoreBasedRisk s).
Proof. unfold scoreBasedRisk. repeat num_case; simpl; lra. Qed.

(** The specification's thresholds determine the level. *)
Lemma scoreLevelSpec_unique (s : Q) (l1 l2 : DangerLevel) :
  scoreLevelSpec s l1 -> scoreLevelSpec s l2 -> l1 = l2.
Proof. destruct l1, l2; simpl; intros; try reflexivity; try contradiction; lra. Qed.

Lemma determineRiskLevel_eq (s : Q) (f : DangerLevel) :
  determineRiskLevel s f = stronger f (scoreBasedRisk s).
Proof. apply levelAt_max. Qed.

(** Merging two levels is idempotent and commutative. *)
Lemma stronger_idempotent (a : DangerLevel) : stronger a a = a.
Proof. destruct a; reflexivity. Qed.

Lemma stronger_comm (a b : DangerLevel) : stronger a b = stronger b a.
Proof. destruct a, b; reflexivity. Qed.

(** C2: the final level is the stronger of the floor level and the
    score-based level, which the thresholds 35, 20, 12, 6 and 2 fix; it is
    one of the two levels, and neither of them outranks it. *)
Theorem determineRiskLevel_stronger (s : Q) (f : DangerLevel) :
  scoreLevelSpec s (scoreBasedRisk s)
  /\ determineRiskLevel s f = stronger f (scoreBasedRisk s)
  /\ (determineRiskLevel s f = f \/ determineRiskLevel s f = scoreBasedRisk s)
  /\ (rank f <= rank (determineRiskLevel s f))%nat
  /\ (rank (scoreBasedRisk s) <= rank (determineRiskLevel s f))%nat.
Proof.
  pose proof (determineRiskLevel_eq s f) as E.
  split; [apply scoreBasedRisk_spec |].
  split; [exact E |].
  rewrite E, stronger_rank.
  split; [apply stronger_either | lia].
Qed.

(** C9: no total score is mapped to [normal], so that a final level
    [normal] is the floor level, with a score below 2. *)
Theorem scoreBasedRisk_never_normal (s : Q) :
  scoreBasedRisk s <> normal
  /\ In (scoreBasedRisk s) [no_risk; low; medium; high; very_high; extreme]
  /\ forall f : DangerLevel,
       determineRiskLevel s f = normal -> f = normal /\ scoreBasedRisk s = no_risk.
Proof.
  assert (N : scoreBasedRisk s <> normal).
  { intros E. pose proof (scoreBasedRisk_spec s) as H. now rewrite E in H. }
  split; [exact N |].
  split.
  - destruct (scoreBasedRisk s); simpl; tauto.
  - intros f E. rewrite determineRiskLevel_eq in E. unfold stronger in E.
    destruct (scoreBasedRisk s), f; try discriminate E; try contradiction; auto.
Qed.

(** ** The entry point, unfolded *)

Section EntryPointFacts.
Context {R : Runtime}.
Variables (disk : Disk) (now : JSDate) (feed : FeedResponse).
Variables (st : Store) (env : EnvironmentalData).

Lemma ACTIVE_FIRE_URL_truthy : negb (String.eqb ACTIVE_FIRE_URL "") = true.
Proof. reflexivity. Qed.

Lemma getWildfireRisk_riskLevel :
  riskLevel (fst (getWildfireRisk disk now feed st env))
  = determineRiskLevel (finalScore disk now feed st env)
      (level (assessDangerLevel env)).
Proof.
  unfold getWildfireRisk, finalScore. rewrite ACTIVE_FIRE_URL_truthy.
  cbv zeta. destruct (getActiveFirePenalty feed env >? 0)%Z; reflexivity.
Qed.

(** The whole result, part by part. *)
Lemma getWildfireRisk_result :
  let hist := historicalData (loadHistoricalWildfireData disk st) in
  let radius := adaptiveRadius env hist in
  let nearestFires := nearestFiresOf env hist radius in
  let penalty := getActiveFirePenalty feed env in
  let total := finalScore disk now feed st env in
  let basic := assessDangerLevel env in
  fst (getWildfireRisk disk now feed st env)
  = {| riskLevel := determineRiskLevel total (level basic);
       riskExplanation :=
         explanationOf radius (length nearestFires) basic total
           (determineRiskLevel total (level basic))
           (if (penalty >? 0)%Z then activeFireNoteOf penalty else ""%string) |}.
Proof.
  unfold getWildfireRisk, finalScore. rewrite ACTIVE_FIRE_URL_truthy.
  cbv zeta. destruct (getActiveFirePenalty feed env >? 0)%Z; reflexivity.
Qed.

Lemma getWildfireRisk_store :
  snd (getWildfireRisk disk now feed st env) = loadHistoricalWildfireData disk st.
Proof.
  unfold getWildfireRisk. rewrite ACTIVE_FIRE_URL_truthy.
  cbv zeta. destruct (getActiveFirePenalty feed env >? 0)%Z; reflexivity.
Qed.
End EntryPointFacts.

(** ** Real-time floor dominance *)

Lemma stronger_extreme_l (a : DangerLevel) : stronger extreme a = extreme.
Proof. destruct a; reflexivity. Qed.

Lemma stronger_extreme_r (a : DangerLevel) : stronger a extreme = extreme.
Proof. destruct a; reflexivity. Qed.

Lemma tempLevelOf_extreme (t : Q) : 60 <= t -> tempLevelOf t = extreme.
Proof. intros H. unfold tempLevelOf. repeat num_case; (reflexivity || lra). Qed.

Lemma assessDangerLevel_level (data : EnvironmentalData) :
  level (assessDangerLevel data)
  = stronger (aqiLevelOf (airQuality data)) (tempLevelOf (temperature data)).
Proof. unfold assessDangerLevel. cbv zeta. simpl level. apply levelAt_max. Qed.

(** C1: a temperature of 60 or more makes [assessDangerLevel] report
    [extreme], and [getWildfireRisk] too, whatever the other readings, the
    files, the store, the clock and the response of the feed are. *)
Theorem extreme_temperature_dominates {R : Runtime} (disk : Disk) (now : JSDate)
    (feed : FeedResponse) (st : Store) (env : EnvironmentalData) :
  60 <= temperature env ->
  level (assessDangerLevel env) = extreme
  /\ riskLevel (fst (getWildfireRisk disk now feed st env)) = extreme.
Proof.
  intros H.
  assert (L : level (assessDangerLevel env) = extreme).
  { rewrite assessDangerLevel_level, (tempLevelOf_extreme _ H).
    apply stronger_extreme_r. }
  split; [exact L |].
  rewrite getWildfireRisk_riskLevel, L, determineRiskLevel_eq.
  apply stronger_extreme_l.
Qed.

Lemma extreme_temperature_dominates_witness :
  60 <= temperature (Sample.envAt 65 60 (-125))
  /\ level (assessDangerLevel (Sample.envAt 65 60 (-125))) = extreme
  /\ riskLevel (fst (getWildfireRisk (R := Sample.runtime) Sample.noDisk
                       (Sample.utcDate 2025 7 1) FetchRejected
                       (Sample.storeOf []) (Sample.envAt 65 60 (-125)))) = extreme.
Proof.
  assert (H : 60 <= temperature (Sample.envAt 65 60 (-125))) by (simpl; lra).
  split; [exact H |].
  exact (extreme_temperature_dominates (R := Sample.runtime) Sample.noDisk
           (Sample.utcDate 2025 7 1) FetchRejected (Sample.storeOf [])
           (Sample.envAt 65 60 (-125)) H).
Defined.

(** ** The distance factor *)

(** In the interpolation branch the ratio lies strictly between 0 and 1. *)
Lemma interpolation_bounds (d r : Q) :
  10 < d -> d < r ->
  0.1 <= 1.0 - 0.9 * ((d - 10) / (r - 10)) /\ 1.0 - 0.9 * ((d - 10) / (r - 10)) <= 1.
Proof.
  intros Hd Hr. unfold Qdiv.
  assert (Hk : 0 < / (r - 10)) by (apply Qinv_lt_0_compat; lra).
  assert (Hi : (r - 10) * / (r - 10) == 1) by (apply Qmult_inv_r; lra).
  set (k := / (r - 10)) in *. split; nra.
Qed.

Lemma interpolation_antitone (d1 d2 r : Q) :
  10 < r -> d1 <= d2 ->
  1.0 - 0.9 * ((d2 - 10) / (r - 10)) <= 1.0 - 0.9 * ((d1 - 10) / (r - 10)).
Proof.
  intros Hr Hd. unfold Qdiv.
  assert (Hk : 0 < / (r - 10)) by (apply Qinv_lt_0_compat; lra).
  set (k := / (r - 10)) in *. nra.
Qed.

Lemma getDistanceWeight_range (d r : Q) :
  0.1 <= getDistanceWeight d r /\ getDistanceWeight d r <= 1.
Proof.
  unfold getDistanceWeight. repeat num_case; try (split; lra).
  apply interpolation_bounds; lra.
Qed.

(** C6: for a radius above 10 the distance factor is 1 up to 10 km, 0.1
    from the radius on, the linear interpolation in between, never above
    1, and it does not increase with the distance. *)
Theorem getDistanceWeight_profile (r : Q) :
  10 < r ->
  (forall d, d <= 10 -> getDistanceWeight d r == 1)
  /\ (forall d, r <= d -> getDistanceWeight d r == 0.1)
  /\ (forall d, 10 < d -> d < r ->
        getDistanceWeight d r == 1.0 - 0.9 * (d - 10) / (r - 10))
  /\ (forall d, getDistanceWeight d r <= 1)
  /\ (forall d1 d2, d1 <= d2 -> getDistanceWeight d2 r <= getDistanceWeight d1 r).
Proof.
  intros Hr. repeat split.
  - intros d Hd. unfold getDistanceWeight. repeat num_case; lra.
  - intros d Hd. unfold getDistanceWeight. repeat num_case; lra.
  - intros d H1 H2. unfold getDistanceWeight. repeat num_case; try lra.
    unfold Qdiv. ring.
  - intros d. apply getDistanceWeight_range.
  - intros d1 d2 Hd.
    pose proof (getDistanceWeight_range d1 r) as [L1 U1].
    pose proof (getDistanceWeight_range d2 r) as [L2 U2].
    unfold getDistanceWeight in *.
    destruct (num_le_reflect d1 10), (num_le_reflect d2 10); try lra.
    destruct (num_ge_reflect d1 r), (num_ge_reflect d2 r); try lra.
    now apply interpolation_antitone.
Qed.

Lemma getDistanceWeight_profile_witness :
  10 < 30
  /\ getDistanceWeight 30 30 == 0.1
  /\ getDistanceWeight 20 30 == 1.0 - 0.9 * (20 - 10) / (30 - 10)
  /\ getDistanceWeight 25 30 <= getDistanceWeight 20 30.
Proof.
  assert (H : 10 < 30) by reflexivity.
  destruct (getDistanceWeight_profile 30 H) as (_ & Hfar & Hmid & _ & Hmono).
  split; [exact H |].
  split; [apply Hfar; discriminate |].
  split; [apply Hmid; reflexivity |].
  apply Hmono; discriminate.
Defined.

(** ** No term of the score is negative *)

(** Case analysis on every conditional of the goal. *)
Ltac by_branches :=
  repeat match goal with
         | |- context [if ?c then _ else _] => destruct c
         end.

Lemma getCauseFactor_pos (c : string) : 0 < getCauseFactor c.
Proof. unfold getCauseFactor. by_branches; reflexivity. Qed.

Lemma adjustSeverityForLandscape_nonneg (s : string) (y : Z) (t : TerrainType) :
  0 <= adjustSeverityForLandscape s y t.
Proof. unfold adjustSeverityForLandscape. by_branches; discriminate. Qed.

Lemma getPenaltyByConsecutiveCount_nonneg (count : Z) :
  0 <= getPenaltyByConsecutiveCount count.
Proof. unfold getPenaltyByConsecutiveCount. by_branches; discriminate. Qed.

Lemma consecutiveLoop_nonneg (years : list Z) :
  forall (totalPenalty : Q) (count : Z),
    0 <= totalPenalty -> 0 <= fst (consecutiveLoop years totalPenalty count).
Proof.
  induction years as [| y rest IH]; intros tp c Htp; [exact Htp |].
  destruct rest as [| y' rest']; [exact Htp |].
  change (0 <= fst (if (y' =? y + 1)%Z
                    then consecutiveLoop (y' :: rest') tp (c + 1)%Z
                    else consecutiveLoop (y' :: rest')
                           (if (c >=? 2)%Z
                            then tp + getPenaltyByConsecutiveCount c else tp) 1%Z)).
  pose proof (getPenaltyByConsecutiveCount_nonneg c).
  destruct (y' =? y + 1)%Z; apply IH; [exact Htp |].
  destruct (c >=? 2)%Z; lra.
Qed.

Lemma consecutiveYearPenaltyOfYears_nonneg (fireYears : list Z) :
  0 <= consecutiveYearPenaltyOfYears fireYears.
Proof.
  unfold consecutiveYearPenaltyOfYears.
  destruct (length fireYears <? 2)%nat; [discriminate |].
  pose proof (consecutiveLoop_nonneg
                (sort (fun a b => inject_Z (a - b)) fireYears) 0 1%Z) as H.
  destruct (consecutiveLoop _ 0 1%Z) as [tp c]. simpl in H. unfold closeRun.
  pose proof (getPenaltyByConsecutiveCount_nonneg c).
  destruct (c >=? 2)%Z; lra.
Qed.

Lemma overlapPenaltyOfCounts_nonneg (yearCounts : gmap Z Z) :
  0 <= overlapPenaltyOfCounts yearCounts.
Proof.
  unfold overlapPenaltyOfCounts.
  apply (map_fold_weak_ind (fun (r : Q) (_ : gmap Z Z) => 0 <= r)).
  - discriminate.
  - intros i count m r _ Hr. destruct (count >? 1)%Z eqn:E; [| exact Hr].
    assert (0 <= inject_Z (count - 1)).
    { change 0 with (inject_Z 0). rewrite <- Zle_Qle. lia. }
    nra.
Qed.

Lemma sum_from_nonneg {A : Type} (g : A -> Q) (l : list A) :
  (forall x, 0 <= g x) ->
  forall acc, 0 <= acc -> 0 <= fold_left (fun a x => a + g x) l acc.
Proof.
  intros Hg. induction l as [| x l IH]; intros acc Hacc; [exact Hacc |].
  simpl. apply IH. specialize (Hg x). lra.
Qed.

Lemma addRealTime_increases (env : EnvironmentalData) (total : Q) :
  total <= addRealTime env total.
Proof.
  unfold addRealTime. cbv zeta.
  set (t1 := if temperature env >=? 60 then _ else _).
  assert (H1 : total <= t1) by (subst t1; by_branches; lra).
  clearbody t1.
  set (t2 := match airQuality env with Some _ => _ | None => _ end).
  assert (H2 : t1 <= t2) by (subst t2; destruct (airQuality env); by_branches; lra).
  clearbody t2.
  set (t3 := match drynessIndex env with Some _ => _ | None => _ end).
  assert (H3 : t2 <= t3) by (subst t3; destruct (drynessIndex env); by_branches; lra).
  clearbody t3.
  set (t4 := match humidity env with Some _ => _ | None => _ end).
  assert (H4 : t3 <= t4) by (subst t4; destruct (humidity env); by_branches; lra).
  clearbody t4.
  set (t5 := match windSpeed env with Some _ => _ | None => _ end).
  assert (H5 : t4 <= t5) by (subst t5; destruct (windSpeed env); by_branches; lra).
  clearbody t5.
  destruct (timeOfDay env); by_branches; lra.
Qed.

Section ScoreBounds.
Context {R : Runtime}.
Variable now : JSDate.

Lemma getRecencyFactor_pos (d : string) : 0 < getRecencyFactor now d.
Proof. unfold getRecencyFactor. cbv zeta. by_branches; reflexivity. Qed.

Lemma getSeasonalityFactor_pos (d : string) (la lo : Q) :
  0 < getSeasonalityFactor now d la lo.
Proof. unfold getSeasonalityFactor. cbv zeta. by_branches; reflexivity. Qed.

Lemma fireScore_nonneg (env : EnvironmentalData) (maxRadius : Q)
    (fire : HistoricalFireRecord) :
  0 <= fireScore now env maxRadius fire.
Proof.
  unfold fireScore. cbv zeta.
  repeat apply Qmult_le_0_compat.
  - apply adjustSeverityForLandscape_nonneg.
  - by_branches; discriminate.
  - apply Qlt_le_weak, getRecencyFactor_pos.
  - apply Qlt_le_weak, getCauseFactor_pos.
  - apply Qlt_le_weak, getSeasonalityFactor_pos.
  - pose proof (getDistanceWeight_range
                  (calculateDistance (lat (location env)) (lng (location env))
                     (latitude (fire_location fire))
                     (longitude (fire_location fire))) maxRadius).
    lra.
Qed.

Lemma frequency_le_total (env : EnvironmentalData)
    (fires : list HistoricalFireRecord) (maxRadius : Q) :
  inject_Z (Z.min (Z.of_nat (length fires)) 5)
  <= computeRiskFromHistoryAndRealTime now env fires maxRadius.
Proof.
  unfold computeRiskFromHistoryAndRealTime. cbv zeta.
  eapply Qle_trans; [| apply addRealTime_increases].
  pose proof (sum_from_nonneg (fireScore now env maxRadius) fires
                (fireScore_nonneg env maxRadius) 0 (Qle_refl 0)).
  pose proof (consecutiveYearPenaltyOfYears_nonneg (map fireYear fires)).
  pose proof (overlapPenaltyOfCounts_nonneg (countYears (map fireYear fires))).
  unfold getConsecutiveYearPenalty, getOverlappingFiresPenalty. lra.
Qed.
End ScoreBounds.

Lemma scoreBasedRisk_at_least_low (s : Q) :
  2 <= s -> (rank low <= rank (scoreBasedRisk s))%nat.
Proof. intros H. unfold scoreBasedRisk. repeat num_case; simpl; (lia || lra). Qed.

(** C10: the per-fire scores, the two penalties and the real-time
    additions are not negative, so the total is at least the frequency
    score [min(n, 5)]; with two fires or more the score-based level is
    [low] or stronger. *)
Theorem total_at_least_frequency {R : Runtime} (now : JSDate)
    (env : EnvironmentalData) (fires : list HistoricalFireRecord) (maxRadius : Q) :
  (forall fire, 0 <= fireScore now env maxRadius fire)
  /\ 0 <= getConsecutiveYearPenalty fires
  /\ 0 <= getOverlappingFiresPenalty fires
  /\ (forall total, total <= addRealTime env total)
  /\ inject_Z (Z.min (Z.of_nat (length fires)) 5)
     <= computeRiskFromHistoryAndRealTime now env fires maxRadius
  /\ ((2 <= length fires)%nat ->
      (rank low
       <= rank (scoreBasedRisk
                  (computeRiskFromHistoryAndRealTime now env fires maxRadius)))%nat).
Proof.
  split; [apply fireScore_nonneg |].
  split; [apply consecutiveYearPenaltyOfYears_nonneg |].
  split; [apply overlapPenaltyOfCounts_nonneg |].
  split; [apply addRealTime_increases |].
  pose proof (frequency_le_total now env fires maxRadius) as H.
  split; [exact H |].
  intros Hn. apply scoreBasedRisk_at_least_low.
  eapply Qle_trans; [| exact H].
  change 2 with (inject_Z 2). rewrite <- Zle_Qle. lia.
Qed.

(** ** Sorting *)

Section SortFacts.
Context {A : Type} (compareFn : A -> A -> Q) (key : A -> Q).

Lemma insertSorted_Permutation (x : A) (l : list A) :
  Permutation (insertSorted compareFn x l) (x :: l).
Proof.
  induction l as [| y t IH]; simpl; [reflexivity |].
  destruct (compareFn x y <=? 0); [reflexivity |].
  rewrite IH. apply perm_swap.
Qed.

Lemma sort_Permutation (l : list A) : Permutation (sort compareFn l) l.
Proof.
  induction l as [| x t IH]; simpl; [reflexivity |].
  rewrite insertSorted_Permutation. now constructor.
Qed.


End SortFacts.



(** ** Adaptive radius and candidate selection *)


(** ** The consecutive-year penalty *)








(** The three sets of years of the specification. *)
Lemma consecutive_penalty_examples :
  consecutiveYearPenaltyOfYears [2019; 2020; 2021]%Z == 0.5
  /\ consecutiveYearPenaltyOfYears [2019; 2020; 2023; 2024]%Z == 0.4
  /\ consecutiveYearPenaltyOfYears [2019; 2021]%Z == 0.
Proof. repeat split. Qed.

(** C5 fails where two fires share a year inside a run: fires in 2019,
    2020, 2020 and 2021 have the fire years 2019 to 2021, one run of three
    years and a penalty of 0.5 by the specification; the source ends the
    run at the second 2020 and returns 0.4. *)
Theorem consecutive_penalty_repeated_year :
  let fires := [Sample.fireOn "2019-07-01"; Sample.fireOn "2020-07-01";
                Sample.fireOn "2020-08-01"; Sample.fireOn "2021-07-01"] in
  let fireYears := map (fireYear (R := Sample.runtime)) fires in
  fireYears = [2019; 2020; 2020; 2021]%Z
  /\ distinctYears fireYears = [2019; 2020; 2021]%Z
  /\ specConsecutiveYearPenalty fireYears == 0.5
  /\ getConsecutiveYearPenalty (R := Sample.runtime) fires == 0.4
  /\ ~ getConsecutiveYearPenalty (R := Sample.runtime) fires
       == specConsecutiveYearPenalty fireYears.
Proof. repeat split. intros H. discriminate H. Qed.

(** ** The active-fire check *)

Lemma scanFeatures_cons (lat lng : Q) (f : GeoJsonFeature)
    (rest : list GeoJsonFeature) :
  scanFeatures lat lng (f :: rest)
  = if featureThrows f then Throws
    else if featureContains lat lng f then Return 5%Z
    else scanFeatures lat lng rest.
Proof.
  unfold featureThrows, featureContains, featureCoordinates. simpl.
  destruct (geometry f) as [geom |]; [| reflexivity].
  destruct (coordinates geom) as [coords |]; [| reflexivity].
  destruct (getBoundingBox coords); reflexivity.
Qed.

Lemma featureContains_not_throws (lat lng : Q) (f : GeoJsonFeature) :
  featureContains lat lng f = true -> featureThrows f = false.
Proof.
  unfold featureContains, featureThrows.
  destruct (featureCoordinates f) as [coords |]; [| reflexivity].
  destruct (getBoundingBox coords); [reflexivity | discriminate].
Qed.

(** The scan gives 0 or 5, or throws. *)
Lemma scanFeatures_values (lat lng : Q) (features : list GeoJsonFeature) :
  scanFeatures lat lng features = Return 0%Z
  \/ scanFeatures lat lng features = Return 5%Z
  \/ scanFeatures lat lng features = Throws.
Proof.
  induction features as [| f rest IH]; [now left |].
  rewrite scanFeatures_cons.
  destruct (featureThrows f); [now right; right |].
  destruct (featureContains lat lng f); [now right; left | exact IH].
Qed.

(** The scan gives 5 exactly when it reaches a feature whose box holds
    the point before any feature on which the box computation throws. *)
Lemma scanFeatures_hit (lat lng : Q) (features : list GeoJsonFeature) :
  scanFeatures lat lng features = Return 5%Z
  <-> exists before f after,
        features = before ++ f :: after
        /\ featureContains lat lng f = true
        /\ Forall (fun g => featureThrows g = false) before.
Proof.
  induction features as [| f rest IH].
  - split; [discriminate |].
    intros (before & g & after & E & _). now destruct before.
  - rewrite scanFeatures_cons. split.
    + destruct (featureThrows f) eqn:Et; [discriminate |].
      destruct (featureContains lat lng f) eqn:Ec.
      * intros _. exists [], f, rest. repeat split; [exact Ec | constructor].
      * intros H. apply IH in H as (before & g & after & -> & Hg & Hb).
        exists (f :: before), g, after.
        repeat split; [exact Hg | now constructor].
    + intros (before & g & after & E & Hg & Hb).
      destruct before as [| b before'].
      * injection E as <- <-.
        now rewrite (featureContains_not_throws _ _ _ Hg), Hg.
      * injection E as <- ->. apply Forall_cons_iff in Hb as [Hf Hb].
        rewrite Hf. destruct (featureContains lat lng f); [reflexivity |].
        apply IH. exists before', g, after. repeat split; assumption.
Qed.

(** *** The box is the extent of the positions *)

(** Folding [extendBox] lowers the two minima and raises the two maxima
    to the positions met. *)
Lemma extendBox_fold (ps : list Position) :
  forall minLat minLng maxLat maxLng : Q,
    let '(minLat', minLng', maxLat', maxLng') :=
      fold_left extendBox ps (minLat, minLng, maxLat, maxLng) in
    forall x : Q,
      (minLat' <= x <-> minLat <= x \/ exists p, In p ps /\ snd p <= x)
      /\ (x <= maxLat' <-> x <= maxLat \/ exists p, In p ps /\ x <= snd p)
      /\ (minLng' <= x <-> minLng <= x \/ exists p, In p ps /\ fst p <= x)
      /\ (x <= maxLng' <-> x <= maxLng \/ exists p, In p ps /\ x <= fst p).
Proof.
  induction ps as [| [lng lat] rest IH]; intros a b c d.
  - simpl. intros x. repeat split; try tauto; intros [H | (p & [] & _)]; exact H.
  - simpl fold_left.
    specialize (IH (if lat <? a then lat else a) (if lng <? b then lng else b)
                   (if lat >? c then lat else c) (if lng >? d then lng else d)).
    destruct (fold_left extendBox rest _) as [[[a' b'] c'] d'].
    intros x. destruct (IH x) as (H1 & H2 & H3 & H4).
    rewrite H1, H2, H3, H4. clear.
    repeat split.
    all: try (intros [H | (p & Hp & Hx)];
              [ revert H; repeat num_case; intros H;
                first [ left; lra | right; exists (lng, lat); split; [now left | simpl; lra] ]
              | right; exists p; split; [now right | exact Hx] ]).
    all: intros [H | (p & [<- | Hp] & Hx)];
      [ left; repeat num_case; lra
      | left; simpl in Hx; repeat num_case; lra
      | right; exists p; split; assumption ].
Qed.

Lemma rings_fold (polygon : list Ring) :
  forall box,
    fold_left (fun box ring => fold_left extendBox ring box) polygon box
    = fold_left extendBox (concat polygon) box.
Proof.
  induction polygon as [| ring rest IH]; intros box; [reflexivity |].
  simpl. now rewrite fold_left_app, IH.
Qed.

Lemma polygons_fold (polygons : list (list Ring)) :
  forall box,
    fold_left
      (fun box polygon =>
         fold_left (fun box ring => fold_left extendBox ring box) polygon box)
      polygons box
    = fold_left extendBox (concat (concat polygons)) box.
Proof.
  induction polygons as [| polygon rest IH]; intros box; [reflexivity |].
  simpl. now rewrite IH, rings_fold, concat_app, fold_left_app.
Qed.

Lemma getBoundingBox_positions (coords : Coordinates) (box : BoundingBox) :
  getBoundingBox coords = Return box ->
  box = fold_left extendBox (positionsOf coords) initialBox.
Proof.
  destruct coords as [[| ring rings] | polygons | type]; simpl; intros H;
    try discriminate H; injection H as <-; [reflexivity | | reflexivity].
  apply polygons_fold.
Qed.

Lemma isPointInBoundingBox_iff (la lo : Q) (a b c d : Q) :
  isPointInBoundingBox la lo (a, b, c, d) = true
  <-> a <= la /\ la <= c /\ b <= lo /\ lo <= d.
Proof.
  unfold isPointInBoundingBox.
  destruct (num_ge_reflect la a), (num_le_reflect la c),
    (num_ge_reflect lo b), (num_le_reflect lo d); simpl;
    split; (tauto || discriminate || (intros; reflexivity)).
Qed.

Lemma getBoundingBox_extent (coords : Coordinates) (box : BoundingBox)
    (la lo : Q) :
  getBoundingBox coords = Return box ->
  -9999 < la -> la < 9999 -> -9999 < lo -> lo < 9999 ->
  (isPointInBoundingBox la lo box = true <-> inExtent la lo (positionsOf coords)).
Proof.
  intros Hb Hl1 Hl2 Hl3 Hl4. apply getBoundingBox_positions in Hb. subst box.
  pose proof (extendBox_fold (positionsOf coords) 9999 9999 (-9999) (-9999)) as H.
  unfold initialBox.
  destruct (fold_left extendBox (positionsOf coords) _) as [[[a b] c] d].
  rewrite isPointInBoundingBox_iff. unfold inExtent.
  destruct (H la) as (H1 & H2 & _ & _). destruct (H lo) as (_ & _ & H3 & H4).
  rewrite H1, H2, H3, H4. clear - Hl1 Hl2 Hl3 Hl4.
  split.
  - intros ([? | ?] & [? | ?] & [? | ?] & [? | ?]); try lra. tauto.
  - tauto.
Qed.

(** For a point with coordinates between -9999 and 9999, as latitudes
    and longitudes are, a feature holds the point exactly when it has
    coordinates, the box computation returns, and the point lies in the
    extent of the positions. *)
Lemma featureContains_extent (la lo : Q) (f : GeoJsonFeature) :
  -9999 < la -> la < 9999 -> -9999 < lo -> lo < 9999 ->
  (featureContains la lo f = true
   <-> exists coords,
         featureCoordinates f = Some coords
         /\ featureThrows f = false
         /\ inExtent la lo (positionsOf coords)).
Proof.
  intros H1 H2 H3 H4. unfold featureContains, featureThrows.
  destruct (featureCoordinates f) as [coords |].
  - destruct (getBoundingBox coords) as [box |] eqn:E.
    + rewrite (getBoundingBox_extent coords box la lo E H1 H2 H3 H4). split.
      * intros H. exists coords. auto.
      * intros (c & Hc & _ & Hin). now injection Hc as <-.
    + split; [discriminate |]. intros (c & _ & Hc & _). discriminate Hc.
  - split; [discriminate |]. intros (c & Hc & _). discriminate Hc.
Qed.

(** What the check computes, the abort on a throwing feature included:
    it returns 0 or 5 and never throws; it returns 0 when the fetch fails,
    the status is not a success, the body cannot be read or has no feature
    list; with a feature list it returns 5 exactly when a feature whose
    box holds the point comes before every feature on which the box
    computation throws, and so, on a list without such features, exactly
    when some feature's box holds the point. *)
Theorem getActiveFirePenalty_spec (feed : FeedResponse) (env : EnvironmentalData) :
  let la := lat (location env) in
  let lo := lng (location env) in
  (getActiveFirePenalty feed env = 0%Z \/ getActiveFirePenalty feed env = 5%Z)
  /\ (feed = FetchRejected -> getActiveFirePenalty feed env = 0%Z)
  /\ (forall body, feed = HttpResponse false body ->
        getActiveFirePenalty feed env = 0%Z)
  /\ (forall ok, feed = HttpResponse ok Throws -> getActiveFirePenalty feed env = 0%Z)
  /\ (forall ok, feed = HttpResponse ok (Return None) ->
        getActiveFirePenalty feed env = 0%Z)
  /\ forall features, feed = HttpResponse true (Return (Some features)) ->
       (getActiveFirePenalty feed env = 5%Z
        <-> exists before f after,
              features = before ++ f :: after
              /\ featureContains la lo f = true
              /\ Forall (fun g => featureThrows g = false) before)
       /\ (Forall (fun g => featureThrows g = false) features ->
           (getActiveFirePenalty feed env = 5%Z
            <-> Exists (fun f => featureContains la lo f = true) features)).
Proof.
  intros la lo.
  split; [| split; [| split; [| split; [| split]]]].
  - unfold getActiveFirePenalty, tryActiveFirePenalty.
    destruct feed as [| [] [[features |] |]]; simpl; auto.
    fold la lo.
    destruct (scanFeatures_values la lo features) as [-> | [-> | ->]]; auto.
  - intros ->. reflexivity.
  - intros body ->. reflexivity.
  - intros [] ->; reflexivity.
  - intros [] ->; reflexivity.
  - intros features ->.
    assert (Hhit : getActiveFirePenalty (HttpResponse true (Return (Some features))) env
                   = 5%Z
                   <-> scanFeatures la lo features = Return 5%Z).
    { unfold getActiveFirePenalty, tryActiveFirePenalty. simpl. fold la lo.
      destruct (scanFeatures_values la lo features) as [-> | [-> | ->]];
        split; congruence. }
    split.
    + rewrite Hhit. apply scanFeatures_hit.
    + intros Hall. rewrite Hhit, scanFeatures_hit. split.
      * intros (before & f & after & -> & Hf & _).
        apply Exists_app. right. now left.
      * intros Hex. apply List.Exists_exists in Hex as (f & Hin & Hf).
        apply in_split in Hin as (before & after & ->).
        exists before, f, after. repeat split; [exact Hf |].
        apply Forall_app in Hall. tauto.
Qed.

(** C3 as stated fails on a feed whose first feature is a polygon with
    an empty array of coordinates: the box of the second feature holds the
    point, and the check returns 0. *)
Lemma active_fire_empty_polygon_counterexample :
  let features := [Sample.polygonFeature [];
                   Sample.polygonFeature [Sample.square 0 10]] in
  let env := Sample.envAt 20 5 5 in
  ~ (Exists (fun f => featureContains 5 5 f = true) features ->
     getActiveFirePenalty (HttpResponse true (Return (Some features))) env = 5%Z).
Proof.
  intros features env H.
  assert (E : Exists (fun f => featureContains 5 5 f = true) features)
    by (right; left; reflexivity).
  specialize (H E). discriminate H.
Qed.

(** C3: the check misses the claim on a feed in which a polygon with an
    empty array of coordinates comes before a feature whose box holds the
    point.  [getBoundingBox] reads [coords[0]] of the empty array and
    throws, the handler around the whole scan returns 0, and the features
    after it are not looked at; with the two features in the other order
    the penalty is 5.  The features the source guards against, or that go
    through the other branches (a polygon whose first ring is empty, a
    multi-polygon with an empty array), are passed over and the scan goes
    on to the penalty of 5. *)
Theorem active_fire_empty_polygon_aborts :
  let empty := Sample.polygonFeature [] in
  let hit := Sample.polygonFeature [Sample.square 0 10] in
  let emptyRing := Sample.polygonFeature [[]] in
  let emptyMulti :=
    {| geometry := Some {| coordinates := Some (MultiPolygonCoordinates []) |} |} in
  let env := Sample.envAt 20 5 5 in
  let penaltyOn features :=
    getActiveFirePenalty (HttpResponse true (Return (Some features))) env in
  featureContains 5 5 hit = true
  /\ getBoundingBox (PolygonCoordinates []) = Throws
  /\ penaltyOn [empty; hit] = 0%Z
  /\ penaltyOn [hit; empty] = 5%Z
  /\ penaltyOn [emptyRing; hit] = 5%Z
  /\ penaltyOn [emptyMulti; hit] = 5%Z.
Proof. repeat split. Qed.

(** Two overlapping perimeters give the penalty once. *)
Lemma active_fire_overlapping_once :
  getActiveFirePenalty
    (HttpResponse true
       (Return (Some [Sample.polygonFeature [Sample.square 0 10];
                      Sample.polygonFeature [Sample.square 2 8]])))
    (Sample.envAt 20 5 5) = 5%Z.
Proof. reflexivity. Qed.

(** ** Normalization and the store *)

Section StoreFacts.
Context {R : Runtime}.

(** A raw entry whose properties can be read has a date string. *)
Lemma unifyDate_returns (raw : JSValue) (v : JSValue) :
  getProp raw "location" = Return v -> exists d, unifyDate raw = Return d.
Proof.
  intros Hv. unfold unifyDate.
  destruct raw; try discriminate Hv; simpl;
    try (eexists; reflexivity).
  destruct (negb (isUndefined (default JUndefined (fields !! "Year"%string)))
            && negb (isUndefined (default JUndefined (fields !! "Month"%string))));
    simpl; [eexists; reflexivity |].
  destruct (default JUndefined (fields !! "date"%string)) as [| | | | s | |];
    try (eexists; reflexivity).
  destruct (truthy (JString s)); eexists; reflexivity.
Qed.

(** Reading a second property of a value whose property was read. *)
Lemma getProp_returns (raw v : JSValue) (k k' : string) :
  getProp raw k = Return v -> exists v', getProp raw k' = Return v'.
Proof. destruct raw; simpl; intros H; try discriminate H; eauto. Qed.

(** What [unifyRecord] admits: the coordinates are the numbers of the raw
    entry, the area is its number [area_burned], or 0. *)
Lemma unifyRecord_admitted (raw : JSValue) (rec : HistoricalFireRecord) :
  unifyRecord raw = Return (Some rec) ->
  rawCoordinate raw "latitude" = Some (latitude (fire_location rec))
  /\ rawCoordinate raw "longitude" = Some (longitude (fire_location rec))
  /\ area_burned rec = rawArea raw.
Proof.
  unfold unifyRecord, rawCoordinate, rawArea.
  destruct (getProp raw "location") as [loc |] eqn:Eloc.
  2: { destruct raw; try discriminate Eloc; discriminate. }
  destruct (unifyDate_returns raw loc Eloc) as [d ->].
  destruct (getProp_returns raw loc "location" "cause" Eloc) as [c ->].
  destruct (getProp_returns raw loc "location" "severity" Eloc) as [sv ->].
  destruct (getProp_returns raw loc "location" "area_burned" Eloc) as [ar ->].
  destruct (getProp_returns raw loc "location" "fire_id" Eloc) as [fid Efid].
  destruct (getProp_returns raw loc "location" "incident_name" Eloc) as [inc Einc].
  simpl. destruct (truthy loc) eqn:Et; simpl; [| discriminate].
  destruct (getProp loc "latitude") as [rawLat |] eqn:Elat; simpl; [| discriminate].
  destruct (getProp_returns loc rawLat "latitude" "longitude" Elat) as [rawLng ->].
  simpl.
  destruct (asNumber rawLat) as [la |] eqn:Ela; [| discriminate].
  destruct (asNumber rawLng) as [lo |] eqn:Elo; [| discriminate].
  rewrite Efid. simpl. rewrite Einc. simpl.
  intros H. injection H as <-. simpl.
  destruct rawLat; try discriminate Ela. injection Ela as ->.
  destruct rawLng; try discriminate Elo. injection Elo as ->.
  repeat split. destruct ar; reflexivity.
Qed.

(** Every record the inner loop pushes comes from an entry of the array. *)
Lemma pushRecords_In (rawArray : list JSValue) :
  forall (data : list HistoricalFireRecord) (rec : HistoricalFireRecord),
    In rec (pushRecords rawArray data) ->
    In rec data
    \/ exists raw, In raw rawArray /\ unifyRecord raw = Return (Some rec).
Proof.
  induction rawArray as [| raw rest IH]; intros data rec Hin; [now left |].
  simpl in Hin. destruct (unifyRecord raw) as [[r |] |] eqn:E.
  - apply IH in Hin as [Hin | (raw' & Hr & Hu)].
    + apply in_app_or in Hin as [Hin | [<- | []]]; [now left |].
      right. exists raw. split; [now left | exact E].
    + right. exists raw'. split; [now right | exact Hu].
  - apply IH in Hin as [Hin | (raw' & Hr & Hu)]; [now left |].
    right. exists raw'. split; [now right | exact Hu].
  - now left.
Qed.

Lemma loadFiles_In (disk : Disk) (names : list string) :
  forall (data : list HistoricalFireRecord) (rec : HistoricalFireRecord),
    In rec (fold_left (loadFile disk) names data) ->
    In rec data
    \/ exists fileName rawArray raw,
         In fileName names /\ disk fileName = Some rawArray
         /\ In raw rawArray /\ unifyRecord raw = Return (Some rec).
Proof.
  induction names as [| name rest IH]; intros data rec Hin; [now left |].
  simpl in Hin. apply IH in Hin as [Hin | (f & arr & raw & Hf & Hd & Hr & Hu)].
  - unfold loadFile in Hin. destruct (disk name) as [arr |] eqn:Ed; [| now left].
    apply pushRecords_In in Hin as [Hin | (raw & Hr & Hu)]; [now left |].
    right. exists name, arr, raw. repeat split; auto. now left.
  - right. exists f, arr, raw. repeat split; auto. now right.
Qed.
End StoreFacts.

(** Loading twice is loading once. *)
Lemma loadHistoricalWildfireData_idempotent {R : Runtime} (disk : Disk) (st : Store) :
  loadHistoricalWildfireData disk (loadHistoricalWildfireData disk st)
  = loadHistoricalWildfireData disk st.
Proof.
  unfold loadHistoricalWildfireData at 1.
  assert (H : loaded (loadHistoricalWildfireData disk st) = true).
  { unfold loadHistoricalWildfireData. destruct (loaded st) eqn:E; [exact E | reflexivity]. }
  now rewrite H.
Qed.

(** C7, amended: every record of the store after the first load comes
    from an entry of one of the five files whose [location] has a number
    [latitude] and a number [longitude], which the record keeps; its
    [area_burned] is the number of the entry, negative or not, and 0 when
    the entry has no number there.  An entry with other coordinates is
    not stored. *)
Theorem stored_records_normalized {R : Runtime} (disk : Disk)
    (rec : HistoricalFireRecord) :
  In rec (historicalData (loadHistoricalWildfireData disk emptyStore)) ->
  exists fileName rawArray raw,
    In fileName files /\ disk fileName = Some rawArray /\ In raw rawArray
    /\ unifyRecord raw = Return (Some rec)
    /\ rawCoordinate raw "latitude" = Some (latitude (fire_location rec))
    /\ rawCoordinate raw "longitude" = Some (longitude (fire_location rec))
    /\ area_burned rec = rawArea raw.
Proof.
  intros Hin. change (In rec (fold_left (loadFile disk) files [])) in Hin.
  apply loadFiles_In in Hin as [[] | (f & arr & raw & Hf & Hd & Hr & Hu)].
  exists f, arr, raw. repeat split; auto; now apply unifyRecord_admitted.
Qed.

(** An entry without a number at one coordinate is dropped. *)
Lemma unifyRecord_drops {R : Runtime} (raw : JSValue) :
  rawCoordinate raw "latitude" = None \/ rawCoordinate raw "longitude" = None ->
  forall rec, unifyRecord raw <> Return (Some rec).
Proof.
  intros H rec E. apply unifyRecord_admitted in E as (Hla & Hlo & _).
  destruct H as [H | H]; congruence.
Qed.

(** C7 as stated fails: an entry with coordinates and the area -5 is
    stored with the area -5. *)
Lemma negative_area_counterexample :
  ~ (forall rec,
       In rec (historicalData
                 (loadHistoricalWildfireData (R := Sample.runtime)
                    Sample.negativeAreaDisk emptyStore)) ->
       0 <= area_burned rec).
Proof.
  intros H.
  specialize (H (Sample.fireAt "1970-01-01" "low" (-5) "Unknown" 50 (-120))).
  assert (Hin : In (Sample.fireAt "1970-01-01" "low" (-5) "Unknown" 50 (-120))
                  (historicalData
                     (loadHistoricalWildfireData (R := Sample.runtime)
                        Sample.negativeAreaDisk emptyStore)))
    by (vm_compute; now left).
  specialize (H Hin). vm_compute in H. now apply H.
Qed.

Lemma stored_records_normalized_witness :
  let rec := Sample.fireAt "1970-01-01" "low" (-5) "Unknown" 50 (-120) in
  In rec (historicalData
            (loadHistoricalWildfireData (R := Sample.runtime)
               Sample.negativeAreaDisk emptyStore))
  /\ exists fileName rawArray raw,
       In fileName files /\ Sample.negativeAreaDisk fileName = Some rawArray
       /\ In raw rawArray
       /\ unifyRecord (R := Sample.runtime) raw = Return (Some rec)
       /\ rawCoordinate raw "latitude" = Some (latitude (fire_location rec))
       /\ rawCoordinate raw "longitude" = Some (longitude (fire_location rec))
       /\ area_burned rec = rawArea raw.
Proof.
  intros rec.
  assert (Hin : In rec (historicalData
                          (loadHistoricalWildfireData (R := Sample.runtime)
                             Sample.negativeAreaDisk emptyStore)))
    by (vm_compute; left; reflexivity).
  split; [exact Hin |].
  exact (stored_records_normalized (R := Sample.runtime)
           Sample.negativeAreaDisk rec Hin).
Defined.

(** ** The clock *)

Lemma In_firstn {A : Type} (n : nat) (l : list A) (x : A) :
  In x (firstn n l) -> In x l.
Proof.
  revert l. induction n as [| n IH]; intros [| y t] H; simpl in *; try tauto.
  destruct H as [-> | H]; [now left | right; now apply IH].
Qed.

Lemma fold_left_agree {A B : Type} (f g : A -> B -> A) (l : list B) :
  (forall a x, In x l -> f a x = g a x) ->
  forall a, fold_left f l a = fold_left g l a.
Proof.
  induction l as [| x t IH]; intros H a; [reflexivity |].
  simpl. rewrite (H a x) by now left.
  apply IH. intros a' y Hy. apply H. now right.
Qed.

Section ClockFacts.
Context {R : Runtime}.

Lemma nearestFiresOf_In (env : EnvironmentalData)
    (hist : list HistoricalFireRecord) (radius : Z) (f : HistoricalFireRecord) :
  In f (nearestFiresOf env hist radius) -> In f hist.
Proof.
  unfold nearestFiresOf, slice0. intros H. apply In_firstn in H.
  eapply Permutation_in in H; [| apply sort_Permutation].
  apply filter_In in H. tauto.
Qed.

(** With the terrain [unknown] the age of the fire does not matter. *)
Lemma adjustSeverityForLandscape_unknown (s : string) (y1 y2 : Z) :
  adjustSeverityForLandscape s y1 unknown = adjustSeverityForLandscape s y2 unknown.
Proof. reflexivity. Qed.

Lemma getSeasonalityFactor_month (now1 now2 : JSDate) (d : string) (la lo : Q) :
  getMonth now1 = getMonth now2 ->
  getSeasonalityFactor now1 d la lo = getSeasonalityFactor now2 d la lo.
Proof. intros H. unfold getSeasonalityFactor. now rewrite H. Qed.

Lemma fireScore_clock (now1 now2 : JSDate) (env : EnvironmentalData)
    (maxRadius : Q) (fire : HistoricalFireRecord) :
  getMonth now1 = getMonth now2 ->
  getRecencyFactor now1 (date fire) = getRecencyFactor now2 (date fire) ->
  fireScore now1 env maxRadius fire = fireScore now2 env maxRadius fire.
Proof.
  intros Hm Hr. unfold fireScore. cbv zeta.
  rewrite Hr, (getSeasonalityFactor_month now1 now2 _ _ _ Hm).
  now rewrite (adjustSeverityForLandscape_unknown _ _
                 (getFullYear now2 - getFullYear (Date_parse (date fire)))%Z).
Qed.

Lemma computeRisk_clock (now1 now2 : JSDate) (env : EnvironmentalData)
    (fires : list HistoricalFireRecord) (maxRadius : Q) :
  getMonth now1 = getMonth now2 ->
  (forall fire, In fire fires ->
     getRecencyFactor now1 (date fire) = getRecencyFactor now2 (date fire)) ->
  computeRiskFromHistoryAndRealTime now1 env fires maxRadius
  = computeRiskFromHistoryAndRealTime now2 env fires maxRadius.
Proof.
  intros Hm Hr. unfold computeRiskFromHistoryAndRealTime. cbv zeta.
  rewrite (fold_left_agree
             (fun acc fire => acc + fireScore now1 env maxRadius fire)
             (fun acc fire => acc + fireScore now2 env maxRadius fire)).
  - reflexivity.
  - intros a fire Hin. now rewrite (fireScore_clock now1 now2) by auto.
Qed.
End ClockFacts.

(** C8, amended: the result is a function of the reading, the files, the
    store, the response of the feed and the clock, and of the clock only
    through the current month and the recency factor of each stored fire;
    two calls that agree on these return the same level, the same
    explanation and the same store. *)
Theorem getWildfireRisk_clock {R : Runtime} (disk : Disk) (now1 now2 : JSDate)
    (feed : FeedResponse) (st : Store) (env : EnvironmentalData) :
  getMonth now1 = getMonth now2 ->
  (forall fire,
     In fire (historicalData (loadHistoricalWildfireData disk st)) ->
     getRecencyFactor now1 (date fire) = getRecencyFactor now2 (date fire)) ->
  getWildfireRisk disk now1 feed st env = getWildfireRisk disk now2 feed st env.
Proof.
  intros Hm Hr. unfold getWildfireRisk. cbv zeta.
  rewrite (computeRisk_clock now1 now2); [reflexivity | exact Hm |].
  intros fire Hin. apply Hr. eapply nearestFiresOf_In, Hin.
Qed.

Lemma getWildfireRisk_clock_witness :
  let st := Sample.storeOf
              [Sample.fireAt "2020-07-15" "extreme" 600 "Lightning" 50 (-100)] in
  let env := Sample.envAt 0 50 (-100) in
  getWildfireRisk (R := Sample.runtime) Sample.noDisk (Sample.utcDate 2021 7 1)
    FetchRejected st env
  = getWildfireRisk (R := Sample.runtime) Sample.noDisk (Sample.utcDate 2022 7 9)
      FetchRejected st env.
Proof.
  intros st env.
  apply (getWildfireRisk_clock (R := Sample.runtime)).
  - reflexivity.
  - intros fire [<- | []]. reflexivity.
Defined.

(** C8 as stated fails: with the same store and the same response of the
    feed, a call in July 2021 and a call in July 2041 return different
    levels, [medium] and [low]. *)
Lemma clock_dependence_counterexample :
  let st := Sample.storeOf
              [Sample.fireAt "2020-07-15" "extreme" 600 "Lightning" 50 (-100)] in
  let env := Sample.envAt 0 50 (-100) in
  riskLevel (fst (getWildfireRisk (R := Sample.runtime) Sample.noDisk
                    (Sample.utcDate 2021 7 1) FetchRejected st env)) = medium
  /\ riskLevel (fst (getWildfireRisk (R := Sample.runtime) Sample.noDisk
                       (Sample.utcDate 2041 7 1) FetchRejected st env)) = low
  /\ fst (getWildfireRisk (R := Sample.runtime) Sample.noDisk
            (Sample.utcDate 2021 7 1) FetchRejected st env)
     <> fst (getWildfireRisk (R := Sample.runtime) Sample.noDisk
               (Sample.utcDate 2041 7 1) FetchRejected st env).
Proof.
  intros st env.
  assert (H1 : riskLevel (fst (getWildfireRisk (R := Sample.runtime) Sample.noDisk
                     (Sample.utcDate 2021 7 1) FetchRejected st env)) = medium)
    by (vm_compute; reflexivity).
  assert (H2 : riskLevel (fst (getWildfireRisk (R := Sample.runtime) Sample.noDisk
                     (Sample.utcDate 2041 7 1) FetchRejected st env)) = low)
    by (vm_compute; reflexivity).
  split; [exact H1 | split; [exact H2 |]].
  intros E. rewrite E in H1. congruence.
Qed.

Lemma total_at_least_frequency_witness :
  let fires := [Sample.fireOn "2019-07-01"; Sample.fireOn "2020-07-01"] in
  let env := Sample.envAt 0 50 (-100) in
  (2 <= length fires)%nat
  /\ (rank low
      <= rank (scoreBasedRisk
                 (computeRiskFromHistoryAndRealTime (R := Sample.runtime)
                    (Sample.utcDate 2025 7 1) env fires 75)))%nat.
Proof.
  intros fires env.
  assert (H : (2 <= length fires)%nat) by (simpl; lia).
  split; [exact H |].
  destruct (total_at_least_frequency (R := Sample.runtime)
              (Sample.utcDate 2025 7 1) env fires 75) as (_ & _ & _ & _ & _ & Hlow).
  exact (Hlow H).
Defined.

(** ** The two scenarios of the specification *)

(** A temperature of 65 and no historical data: the score is the
    real-time addition of 20, a score-based level [very high], and the
    floor [extreme] wins. *)
Example scenario_extreme_floor :
  let env := Sample.envAt 65 60 (-125) in
  let run := getWildfireRisk (R := Sample.runtime) Sample.noDisk
               (Sample.utcDate 2025 7 1) FetchRejected (Sample.storeOf []) env in
  finalScore (R := Sample.runtime) Sample.noDisk (Sample.utcDate 2025 7 1)
    FetchRejected (Sample.storeOf []) env == 20
  /\ scoreBasedRisk 20 = very_high
  /\ level (assessDangerLevel env) = extreme
  /\ riskLevel (fst run) = extreme.
Proof. repeat split. Qed.

(** A temperature of 10 and no historical data: the score is 0, and the
    floor [normal] is the result. *)
Example scenario_normal_floor :
  let env := Sample.envAt 10 0 0 in
  let run := getWildfireRisk (R := Sample.runtime) Sample.noDisk
               (Sample.utcDate 2025 7 1) FetchRejected (Sample.storeOf []) env in
  finalScore (R := Sample.runtime) Sample.noDisk (Sample.utcDate 2025 7 1)
    FetchRejected (Sample.storeOf []) env == 0
  /\ scoreBasedRisk 0 = no_risk
  /\ level (assessDangerLevel env) = normal
  /\ riskLevel (fst run) = normal.
Proof. repeat split. Qed.

(** * Further properties of the engine *)

#[local] Set Warnings "-clear-no-such-hyp".

(** ** Monotonicity of the classifications *)

Lemma tempLevelOf_monotone (t1 t2 : Q) :
  t1 <= t2 -> (rank (tempLevelOf t1) <= rank (tempLevelOf t2))%nat.
Proof.
  intros H. unfold tempLevelOf.
  repeat num_case; simpl; first [lia | exfalso; lra].
Qed.

Lemma aqiLevelOf_monotone (a1 a2 : Q) :
  a1 <= a2 -> (rank (aqiLevelOf (Some a1)) <= rank (aqiLevelOf (Some a2)))%nat.
Proof.
  intros H. unfold aqiLevelOf.
  repeat num_case; simpl; first [lia | exfalso; lra].
Qed.

Lemma scoreBasedRisk_monotone (s1 s2 : Q) :
  s1 <= s2 -> (rank (scoreBasedRisk s1) <= rank (scoreBasedRisk s2))%nat.
Proof.
  intros H. unfold scoreBasedRisk.
  repeat num_case; simpl; first [lia | exfalso; lra].
Qed.

Lemma determineRiskLevel_rank (s : Q) (f : DangerLevel) :
  rank (determineRiskLevel s f) = Nat.max (rank f) (rank (scoreBasedRisk s)).
Proof. now rewrite determineRiskLevel_eq, stronger_rank. Qed.

(** X1: the final level does not go down when the total score or the
    floor level goes up. *)
Theorem determineRiskLevel_monotone (s1 s2 : Q) (f1 f2 : DangerLevel) :
  s1 <= s2 -> (rank f1 <= rank f2)%nat ->
  (rank (determineRiskLevel s1 f1) <= rank (determineRiskLevel s2 f2))%nat.
Proof.
  intros Hs Hf. rewrite !determineRiskLevel_rank.
  pose proof (scoreBasedRisk_monotone s1 s2 Hs). lia.
Qed.

Lemma determineRiskLevel_monotone_witness :
  4 <= 13 /\ (rank normal <= rank low)%nat
  /\ (rank (determineRiskLevel 4 normal) <= rank (determineRiskLevel 13 low))%nat.
Proof.
  assert (Hs : 4 <= 13) by discriminate.
  assert (Hf : (rank normal <= rank low)%nat) by (simpl; lia).
  split; [exact Hs |]. split; [exact Hf |].
  exact (determineRiskLevel_monotone 4 13 normal low Hs Hf).
Defined.

(** X2: the response of the feed changes the total score by the penalty
    alone, which is 0 or 5, and never lowers the final level below the one
    of a call whose fetch fails. *)
Theorem active_fire_penalty_effect {R : Runtime} (disk : Disk) (now : JSDate)
    (feed : FeedResponse) (st : Store) (env : EnvironmentalData) :
  let penalty := getActiveFirePenalty feed env in
  (penalty = 0%Z \/ penalty = 5%Z)
  /\ finalScore disk now feed st env
     == finalScore disk now FetchRejected st env + inject_Z penalty
  /\ (rank (riskLevel (fst (getWildfireRisk disk now FetchRejected st env)))
      <= rank (riskLevel (fst (getWildfireRisk disk now feed st env))))%nat.
Proof.
  intros penalty.
  assert (Hp : penalty = 0%Z \/ penalty = 5%Z).
  { unfold penalty, getActiveFirePenalty, tryActiveFirePenalty.
    destruct feed as [| [] [[features |] |]]; simpl; auto.
    destruct (scanFeatures_values (lat (location env)) (lng (location env))
                features) as [-> | [-> | ->]]; auto. }
  assert (Hs : finalScore disk now feed st env
               == finalScore disk now FetchRejected st env + inject_Z penalty).
  { unfold finalScore. cbv zeta. fold penalty.
    change (getActiveFirePenalty FetchRejected env) with 0%Z.
    set (base := computeRiskFromHistoryAndRealTime _ _ _ _).
    change (0 >? 0)%Z with false. cbv iota.
    clearbody penalty base. destruct Hp as [-> | ->].
    - change (0 >? 0)%Z with false. cbv iota. change (inject_Z 0) with 0. lra.
    - change (5 >? 0)%Z with true. cbv iota. reflexivity. }
  split; [exact Hp |]. split; [exact Hs |].
  rewrite !getWildfireRisk_riskLevel, !determineRiskLevel_rank.
  assert (Hm : (rank (scoreBasedRisk (finalScore disk now FetchRejected st env))
                <= rank (scoreBasedRisk (finalScore disk now feed st env)))%nat).
  { apply scoreBasedRisk_monotone. rewrite Hs. clearbody penalty.
    destruct Hp as [-> | ->];
      [change (inject_Z 0) with 0 | change (inject_Z 5) with 5]; lra. }
  lia.
Qed.

(** X3: the threshold classification does not go down when the
    temperature goes up and the air quality reading, if the first input has
    one, goes up too. *)
Theorem assessDangerLevel_monotone (env1 env2 : EnvironmentalData) :
  temperature env1 <= temperature env2 ->
  (airQuality env1 = None
   \/ exists a1 a2, airQuality env1 = Some a1 /\ airQuality env2 = Some a2
                    /\ a1 <= a2) ->
  (rank (level (assessDangerLevel env1))
   <= rank (level (assessDangerLevel env2)))%nat.
Proof.
  intros Ht Ha. rewrite !assessDangerLevel_level, !stronger_rank.
  pose proof (tempLevelOf_monotone _ _ Ht).
  destruct Ha as [-> | (a1 & a2 & -> & -> & Ha)].
  - simpl. lia.
  - pose proof (aqiLevelOf_monotone a1 a2 Ha). lia.
Qed.

Lemma assessDangerLevel_monotone_witness :
  (rank (level (assessDangerLevel (Sample.envAt 20 0 0)))
   <= rank (level (assessDangerLevel (Sample.envAt 40 0 0))))%nat.
Proof.
  apply assessDangerLevel_monotone.
  - discriminate.
  - left. reflexivity.
Defined.


(** ** Normalized causes and severities, as the scorer weighs them *)

Lemma toUpperChar_toLowerChar (c : ascii) :
  toUpperChar (toLowerChar (toUpperChar c)) = toUpperChar c.
Proof. destruct c as [[] [] [] [] [] [] [] []]; reflexivity. Qed.

Lemma toLowerChar_idempotent (c : ascii) :
  toLowerChar (toLowerChar c) = toLowerChar c.
Proof. destruct c as [[] [] [] [] [] [] [] []]; reflexivity. Qed.

Lemma toUpperCase_toLowerCase (s : string) :
  toUpperCase (toLowerCase (toUpperCase s)) = toUpperCase s.
Proof.
  induction s as [| c t IH]; [reflexivity |].
  unfold toUpperCase, toLowerCase in *. simpl.
  now rewrite toUpperChar_toLowerChar, IH.
Qed.

Lemma toLowerCase_idempotent (s : string) :
  toLowerCase (toLowerCase s) = toLowerCase s.
Proof.
  induction s as [| c t IH]; [reflexivity |].
  unfold toLowerCase in *. simpl. now rewrite toLowerChar_idempotent, IH.
Qed.

(** The cause factor of an upper-case string, by the string. *)
Lemma getCauseFactor_upper (c : string) :
  toUpperCase (toLowerCase c) = c ->
  getCauseFactor c
  = if String.eqb c "LIGHTNING" then 1.2
    else if String.eqb c "HUMAN" then 1.1
    else if String.eqb c "SPONTANEOUS" then 1.05
    else 1.0.
Proof.
  intros Hc. unfold getCauseFactor. cbv zeta.
  assert (E : forall l, String.eqb (toLowerCase c) l = true -> c = toUpperCase l).
  { intros l H. apply String.eqb_eq in H. now rewrite <- H. }
  destruct (String.eqb (toLowerCase c) "lightning") eqn:E1.
  { now rewrite (E _ E1). }
  destruct (String.eqb (toLowerCase c) "human") eqn:E2.
  { now rewrite (E _ E2). }
  destruct (String.eqb (toLowerCase c) "spontaneous") eqn:E3.
  { now rewrite (E _ E3). }
  destruct (String.eqb_spec c "LIGHTNING") as [-> | _]; [discriminate E1 |].
  destruct (String.eqb_spec c "HUMAN") as [-> | _]; [discriminate E2 |].
  destruct (String.eqb_spec c "SPONTANEOUS") as [-> | _]; [discriminate E3 |].
  reflexivity.
Qed.

(** X5: the weight the scorer gives to a raw cause, through
    [unifyCause] and [getCauseFactor]: 1.2 for the codes of lightning, 1.1
    for those of a person, 1.05 for spontaneous fires and 1.0 for
    everything else, a missing cause included; upper and lower case and
    blanks around the code do not matter. *)
Theorem cause_factor_of_raw_cause (causeVal : JSValue) :
  getCauseFactor (unifyCause causeVal)
  = match causeVal with
    | JString s =>
        let c := toUpperCase (trim s) in
        if arrayIncludes ["LTG"; "LIGHTNING"]%string c then 1.2
        else if arrayIncludes ["MAN"; "PERSON"; "H"; "HUMAN"]%string c then 1.1
        else if arrayIncludes ["SPONTANEOUS"; "SPONT"]%string c then 1.05
        else 1.0
    | _ => 1.0
    end.
Proof.
  destruct causeVal as [| | b | n | s | items | fields]; try reflexivity.
  unfold unifyCause. simpl truthy.
  destruct (String.eqb_spec s "") as [-> | _]; [reflexivity |].
  simpl negb. cbv iota zeta.
  assert (Hc : toUpperCase (toLowerCase (toUpperCase (trim s)))
               = toUpperCase (trim s)) by apply toUpperCase_toLowerCase.
  revert Hc. generalize (toUpperCase (trim s)). intros c Hc.
  unfold arrayIncludes, existsb.
  destruct (String.eqb_spec c "MAN") as [-> | _]; [reflexivity |].
  destruct (String.eqb_spec c "PERSON") as [-> | _]; [reflexivity |].
  destruct (String.eqb_spec c "H") as [-> | _]; [reflexivity |].
  destruct (String.eqb_spec c "LTG") as [-> | _]; [reflexivity |].
  destruct (String.eqb_spec c "LIGHTNING") as [-> | Hl]; [reflexivity |].
  destruct (String.eqb_spec c "SPONTANEOUS") as [-> | Hs]; [reflexivity |].
  destruct (String.eqb_spec c "SPONT") as [-> | _]; [reflexivity |].
  simpl orb. cbv iota. rewrite orb_false_r, (getCauseFactor_upper c Hc).
  destruct (String.eqb_spec c "LIGHTNING") as [E | _]; [contradiction |].
  destruct (String.eqb_spec c "SPONTANEOUS") as [E | _]; [contradiction |].
  destruct (String.eqb c "HUMAN"); reflexivity.
Qed.

(** X6: the severity value the scorer gives to a raw severity, through
    [unifySeverity] and [adjustSeverityForLandscape] on the terrain of the
    scorer: the words [very low] win over every other word and give 0,
    then [extreme] or [very high] give 3, [high] gives 2, [medium] gives 1;
    everything else, a missing severity included, gives 0. *)
Theorem severity_value_of_raw_severity (sevVal : JSValue) (yearsAgo : Z) :
  adjustSeverityForLandscape (unifySeverity sevVal) yearsAgo unknown
  = match sevVal with
    | JString s0 =>
        let s := toLowerCase (trim s0) in
        if includes s "very low" then 0
        else if includes s "extreme" || includes s "very high" then 3
        else if includes s "high" then 2
        else if includes s "medium" then 1
        else 0
    | _ => 0
    end.
Proof.
  destruct sevVal as [| | b | n | s0 | items | fields]; try reflexivity.
  unfold unifySeverity. simpl truthy.
  destruct (String.eqb_spec s0 "") as [-> | _]; [reflexivity |].
  simpl negb. cbv iota zeta.
  assert (Hs : toLowerCase (toLowerCase (trim s0)) = toLowerCase (trim s0))
    by apply toLowerCase_idempotent.
  revert Hs. generalize (toLowerCase (trim s0)). intros s Hs.
  destruct (includes s "very low"); [reflexivity |].
  destruct (includes s "extreme") eqn:E1; [reflexivity |].
  destruct (includes s "very high") eqn:E2; [reflexivity |].
  unfold adjustSeverityForLandscape. cbv zeta. rewrite Hs, E1, E2.
  reflexivity.
Qed.

(** ** Bounds of the factors and of the score *)

Lemma yearsAgo_monotone (a b : Z) :
  (a <= b)%Z -> inject_Z a / inject_Z msInYear <= inject_Z b / inject_Z msInYear.
Proof.
  intros H. unfold Qdiv. apply Qmult_le_compat_r.
  - now rewrite <- Zle_Qle.
  - discriminate.
Qed.

(** X7: for one reading of the clock, a fire that is not older than
    another one has a recency factor that is not smaller; a fire dated at
    the reading of the clock or after it has the factor 1.0. *)
Theorem getRecencyFactor_antitone {R : Runtime} (now : JSDate) :
  (forall d1 d2,
     (getTime (Date_parse d1) <= getTime (Date_parse d2))%Z ->
     getRecencyFactor now d1 <= getRecencyFactor now d2)
  /\ (forall d,
        (getTime now <= getTime (Date_parse d))%Z -> getRecencyFactor now d = 1.0).
Proof.
  split.
  - intros d1 d2 H. unfold getRecencyFactor. cbv zeta.
    assert (Hy : inject_Z (getTime now - getTime (Date_parse d2)) / inject_Z msInYear
                 <= inject_Z (getTime now - getTime (Date_parse d1))
                    / inject_Z msInYear)
      by (apply yearsAgo_monotone; lia).
    revert Hy.
    generalize (inject_Z (getTime now - getTime (Date_parse d2)) / inject_Z msInYear).
    generalize (inject_Z (getTime now - getTime (Date_parse d1)) / inject_Z msInYear).
    intros y1 y2 Hy. repeat num_case; lra.
  - intros d H. unfold getRecencyFactor. cbv zeta.
    assert (Hy : inject_Z (getTime now - getTime (Date_parse d)) / inject_Z msInYear
                 <= inject_Z 0 / inject_Z msInYear)
      by (apply yearsAgo_monotone; lia).
    change (inject_Z 0 / inject_Z msInYear) with (0 / inject_Z msInYear) in Hy.
    assert (H0 : 0 / inject_Z msInYear == 0) by reflexivity.
    rewrite H0 in Hy. revert Hy.
    generalize (inject_Z (getTime now - getTime (Date_parse d)) / inject_Z msInYear).
    intros y Hy. repeat num_case; first [reflexivity | exfalso; lra].
Qed.







(** The additions for the real-time readings, stage by stage, on two
    totals at once. *)
Lemma addRealTime_shift_bounds (env : EnvironmentalData) (total : Q) :
  addRealTime env total == total + addRealTime env 0
  /\ 0 <= addRealTime env 0 /\ addRealTime env 0 <= 48.
Proof.
  unfold addRealTime. cbv zeta.
  set (a1 := if temperature env >=? 60 then total + 20 else _).
  set (b1 := if temperature env >=? 60 then 0 + 20 else _).
  assert (H1 : a1 == total + b1 /\ 0 <= b1 /\ b1 <= 20)
    by (subst a1 b1; by_branches; repeat split; lra).
  clearbody a1 b1.
  set (a2 := match airQuality env with
             | Some aq => if aq >=? 300 then a1 + 5 else _
             | None => _ end).
  set (b2 := match airQuality env with
             | Some aq => if aq >=? 300 then b1 + 5 else _
             | None => _ end).
  assert (H2 : a2 == total + b2 /\ 0 <= b2 /\ b2 <= 25)
    by (subst a2 b2; destruct (airQuality env); by_branches; repeat split; lra).
  clear H1. clearbody a2 b2.
  set (a3 := match drynessIndex env with
             | Some dr => if dr >=? 90 then a2 + 8 else _
             | None => _ end).
  set (b3 := match drynessIndex env with
             | Some dr => if dr >=? 90 then b2 + 8 else _
             | None => _ end).
  assert (H3 : a3 == total + b3 /\ 0 <= b3 /\ b3 <= 33)
    by (subst a3 b3; destruct (drynessIndex env); by_branches; repeat split; lra).
  clear H2. clearbody a3 b3.
  set (a4 := match humidity env with
             | Some h => if h <? 10 then a3 + 6 else _
             | None => _ end).
  set (b4 := match humidity env with
             | Some h => if h <? 10 then b3 + 6 else _
             | None => _ end).
  assert (H4 : a4 == total + b4 /\ 0 <= b4 /\ b4 <= 39)
    by (subst a4 b4; destruct (humidity env); by_branches; repeat split; lra).
  clear H3. clearbody a4 b4.
  set (a5 := match windSpeed env with
             | Some w => if w >? 60 then a4 + 8 else _
             | None => _ end).
  set (b5 := match windSpeed env with
             | Some w => if w >? 60 then b4 + 8 else _
             | None => _ end).
  assert (H5 : a5 == total + b5 /\ 0 <= b5 /\ b5 <= 47)
    by (subst a5 b5; destruct (windSpeed env); by_branches; repeat split; lra).
  clear H4. clearbody a5 b5.
  destruct (timeOfDay env); by_branches; repeat split; lra.
Qed.

(** X9: the additions for the real-time readings do not depend on the
    historical part of the score; together they are at least 0 and at
    most 48. *)
Theorem realtime_additions_bounded {R : Runtime} (now : JSDate)
    (env : EnvironmentalData) (fires : list HistoricalFireRecord) (maxRadius : Q) :
  let historical :=
    fold_left (fun acc fire => acc + fireScore now env maxRadius fire) fires 0
    + getConsecutiveYearPenalty fires + getOverlappingFiresPenalty fires
    + inject_Z (Z.min (Z.of_nat (length fires)) 5) in
  computeRiskFromHistoryAndRealTime now env fires maxRadius
  == historical + addRealTime env 0
  /\ 0 <= addRealTime env 0 /\ addRealTime env 0 <= 48
  /\ historical <= computeRiskFromHistoryAndRealTime now env fires maxRadius
  /\ computeRiskFromHistoryAndRealTime now env fires maxRadius <= historical + 48.
Proof.
  intros historical.
  change (computeRiskFromHistoryAndRealTime now env fires maxRadius)
    with (addRealTime env historical).
  destruct (addRealTime_shift_bounds env historical) as (H1 & H2 & H3).
  repeat split; lra.
Qed.

(** ** The overlapping-fires penalty in closed form *)

Lemma overlap_insert_fresh (m : gmap Z Z) (y c : Z) :
  m !! y = None ->
  overlapPenaltyOfCounts (<[y := c]> m)
  == if (c >? 1)%Z then overlapPenaltyOfCounts m + inject_Z (c - 1) * 0.1
     else overlapPenaltyOfCounts m.
Proof.
  intros Hy. unfold overlapPenaltyOfCounts.
  apply (map_fold_insert Qeq
           (fun (_ : Z) (count : Z) (penalty : Q) =>
              if (count >? 1)%Z then penalty + inject_Z (count - 1) * 0.1
              else penalty)).
  - intros j z p q Hpq. destruct (z >? 1)%Z; now rewrite Hpq.
  - intros j1 j2 z1 z2 p _ _ _.
    destruct (z1 >? 1)%Z, (z2 >? 1)%Z; ring.
  - exact Hy.
Qed.

Lemma overlap_insert_again (m : gmap Z Z) (y c : Z) :
  m !! y = Some c -> (1 <= c)%Z ->
  overlapPenaltyOfCounts (<[y := (c + 1)%Z]> m) == overlapPenaltyOfCounts m + 0.1.
Proof.
  intros Hy Hc.
  assert (Hd : delete y m !! y = None) by apply lookup_delete_eq.
  rewrite <- (insert_delete_eq m y (c + 1)%Z).
  rewrite <- (insert_delete_id m y c Hy) at 2.
  rewrite !overlap_insert_fresh by exact Hd.
  destruct (Z.gtb_spec (c + 1) 1); [| lia].
  replace (c + 1 - 1)%Z with c by lia.
  destruct (Z.gtb_spec c 1).
  - unfold Z.sub. rewrite inject_Z_plus, inject_Z_opp.
    change (inject_Z 1) with 1. ring.
  - assert (c = 1%Z) as -> by lia. change (inject_Z 1) with 1. ring.
Qed.

Lemma inject_nat_succ (n : nat) :
  inject_Z (Z.of_nat (S n)) == inject_Z (Z.of_nat n) + 1.
Proof. rewrite Nat2Z.inj_succ. unfold Z.succ. now rewrite inject_Z_plus. Qed.

(** The first loop of [getOverlappingFiresPenalty] keeps every count at 1
    or more, counts a year of the list once in the key set, and moves the
    penalty by 0.1 for each fire in a year that is a key already. *)
Lemma countYears_invariant (fireYears : list Z) :
  forall m : gmap Z Z,
    (forall k c, m !! k = Some c -> (1 <= c)%Z) ->
    let m' :=
      fold_left
        (fun (yearCounts : gmap Z Z) (y : Z) =>
           <[y := (default 0%Z (yearCounts !! y) + 1)%Z]> yearCounts)
        fireYears m in
    (forall k c, m' !! k = Some c -> (1 <= c)%Z)
    /\ dom m' = list_to_set fireYears ∪ dom m
    /\ overlapPenaltyOfCounts m' + 0.1 * inject_Z (Z.of_nat (size m'))
       == overlapPenaltyOfCounts m + 0.1 * inject_Z (Z.of_nat (size m))
          + 0.1 * inject_Z (Z.of_nat (length fireYears)).
Proof.
  induction fireYears as [| y rest IH]; intros m Hm.
  - simpl. repeat split; [exact Hm | set_solver | ring].
  - simpl fold_left.
    set (m1 := <[y := (default 0%Z (m !! y) + 1)%Z]> m).
    assert (H1 : forall k c, m1 !! k = Some c -> (1 <= c)%Z).
    { intros k c. unfold m1. destruct (decide (y = k)) as [-> | Hne].
      - rewrite lookup_insert_eq. intros [= <-].
        destruct (m !! k) as [c0 |] eqn:E; simpl; [| lia].
        specialize (Hm k c0 E). lia.
      - rewrite lookup_insert_ne by exact Hne. apply Hm. }
    assert (H2 : overlapPenaltyOfCounts m1 + 0.1 * inject_Z (Z.of_nat (size m1))
                 == overlapPenaltyOfCounts m + 0.1 * inject_Z (Z.of_nat (size m))
                    + 0.1).
    { unfold m1. destruct (m !! y) as [c0 |] eqn:E; simpl default.
      - rewrite (overlap_insert_again m y c0 E (Hm y c0 E)).
        rewrite map_size_insert_Some by (rewrite E; eauto). ring.
      - rewrite (overlap_insert_fresh m y (0 + 1)%Z E).
        change (0 + 1 >? 1)%Z with false. cbv iota.
        rewrite map_size_insert_None by exact E.
        rewrite inject_nat_succ. ring. }
    destruct (IH m1 H1) as (I1 & I2 & I3).
    split; [exact I1 |]. split.
    + rewrite I2. unfold m1. rewrite dom_insert_L. set_solver.
    + rewrite I3, H2. simpl length. rewrite inject_nat_succ. ring.
Qed.

Lemma overlapPenalty_closed_form (fireYears : list Z) :
  overlapPenaltyOfCounts (countYears fireYears)
  == 0.1 * (inject_Z (Z.of_nat (length fireYears))
            - inject_Z (Z.of_nat (size (list_to_set fireYears : gset Z)))).
Proof.
  destruct (countYears_invariant fireYears ∅) as (_ & Hd & Hp).
  { intros k c H. now rewrite lookup_empty in H. }
  fold (countYears fireYears) in Hd, Hp.
  assert (Hs : size (countYears fireYears) = size (list_to_set fireYears : gset Z)).
  { rewrite <- (size_dom (D := gset Z)), Hd, dom_empty_L. f_equal. set_solver. }
  rewrite Hs in Hp.
  assert (H0 : overlapPenaltyOfCounts ∅ == 0) by reflexivity.
  rewrite H0, map_size_empty in Hp. change (inject_Z (Z.of_nat 0)) with 0 in Hp.
  lra.
Qed.

(** A list has at least as many elements as distinct ones, and as many
    only without repeats. *)
Lemma size_list_to_set_bound (l : list Z) :
  (size (list_to_set l : gset Z) <= length l)%nat
  /\ (size (list_to_set l : gset Z) = length l -> NoDup l).
Proof.
  induction l as [| x t [IH1 IH2]].
  { split; [| constructor].
    change (list_to_set [] : gset Z) with (∅ : gset Z). now rewrite size_empty. }
  rewrite list_to_set_cons. simpl length.
  destruct (decide (x ∈ t)) as [Hin | Hnot].
  - rewrite (subseteq_union_1_L (C := gset Z)) by set_solver.
    split; [lia | intros E; lia].
  - rewrite size_union by set_solver. rewrite size_singleton.
    split; [lia |]. intros E. constructor; [exact Hnot | apply IH2; lia].
Qed.

Lemma tenth_zero (a b : Q) : 0.1 * (a - b) == 0 -> a == b.
Proof. intros H. lra. Qed.

(** X10: the overlapping-fires penalty is 0.1 times the number of fires
    in excess of the number of distinct fire years; it is 0 exactly when
    no two fires share a year. *)
Theorem overlapping_penalty_counts_repeats {R : Runtime}
    (fires : list HistoricalFireRecord) :
  let distinct := size (list_to_set (map fireYear fires) : gset Z) in
  getOverlappingFiresPenalty fires
  == 0.1 * (inject_Z (Z.of_nat (length fires)) - inject_Z (Z.of_nat distinct))
  /\ (getOverlappingFiresPenalty fires == 0 <-> List.NoDup (map fireYear fires)).
Proof.
  intros distinct.
  pose proof (overlapPenalty_closed_form (map fireYear fires)) as H.
  rewrite length_map in H. fold distinct in H.
  split; [exact H |].
  unfold getOverlappingFiresPenalty. rewrite H.
  destruct (size_list_to_set_bound (map fireYear fires)) as [_ Hnd].
  split.
  - intros H0.
    assert (E : distinct = length (map fireYear fires)).
    { rewrite length_map.
      apply tenth_zero in H0. unfold Qeq in H0. simpl in H0. lia. }
    apply NoDup_ListNoDup, Hnd, E.
  - intros Hn. apply NoDup_ListNoDup in Hn.
    assert (E : distinct = length fires).
    { unfold distinct. rewrite size_list_to_set by exact Hn. apply length_map. }
    rewrite E. ring.
Qed.

(** ** The consecutive-year penalty, by runs *)


(** ** The order of the candidate fires does not matter *)










(** ** Loading: what a file and an entry contribute *)

Section LoadingFacts.
Context {R : Runtime}.

Lemma pushRecords_from (rawArray : list JSValue) :
  forall data, pushRecords rawArray data = data ++ pushRecords rawArray [].
Proof.
  induction rawArray as [| raw rest IH]; intros data; simpl.
  - now rewrite app_nil_r.
  - destruct (unifyRecord raw) as [[rec |] |].
    + rewrite (IH (data ++ [rec])), (IH [rec]). now rewrite <- app_assoc.
    + apply IH.
    + now rewrite app_nil_r.
Qed.

Lemma loadFile_from (disk : Disk) (data : list HistoricalFireRecord)
    (fileName : string) :
  loadFile disk data fileName = data ++ loadFile disk [] fileName.
Proof.
  unfold loadFile. destruct (disk fileName); [apply pushRecords_from |].
  now rewrite app_nil_r.
Qed.

Lemma loadFiles_from (disk : Disk) (names : list string) :
  forall data,
    fold_left (loadFile disk) names data
    = data ++ concat (map (loadFile disk []) names).
Proof.
  induction names as [| name rest IH]; intros data; simpl.
  - now rewrite app_nil_r.
  - now rewrite IH, loadFile_from, <- app_assoc.
Qed.

(** An entry whose properties can be read is admitted or dropped. *)
Lemma unifyRecord_returns (raw loc : JSValue) :
  getProp raw "location" = Return loc -> exists r, unifyRecord raw = Return r.
Proof.
  intros Eloc. unfold unifyRecord.
  destruct (unifyDate_returns raw loc Eloc) as [d ->].
  destruct (getProp_returns raw loc "location" "cause" Eloc) as [c ->].
  destruct (getProp_returns raw loc "location" "severity" Eloc) as [sv ->].
  destruct (getProp_returns raw loc "location" "area_burned" Eloc) as [ar ->].
  destruct (getProp_returns raw loc "location" "fire_id" Eloc) as [fid Efid].
  destruct (getProp_returns raw loc "location" "incident_name" Eloc) as [inc Einc].
  rewrite Eloc. simpl.
  destruct (truthy loc) eqn:Et; simpl; [| eauto].
  destruct loc; try discriminate Et; simpl; try (eexists; reflexivity).
  destruct (asNumber (default JUndefined (fields !! "latitude"%string)));
    [| eexists; reflexivity].
  destruct (asNumber (default JUndefined (fields !! "longitude"%string)));
    [| eexists; reflexivity].
  rewrite Efid. simpl. rewrite Einc. simpl. eexists; reflexivity.
Qed.

(** An entry with a number at both coordinates is admitted. *)
Lemma unifyRecord_numeric (raw : JSValue) (la lo : Q) :
  rawCoordinate raw "latitude" = Some la ->
  rawCoordinate raw "longitude" = Some lo ->
  exists rec, unifyRecord raw = Return (Some rec).
Proof.
  unfold rawCoordinate. intros Hla Hlo.
  destruct (getProp raw "location") as [loc |] eqn:Eloc; [| discriminate Hla].
  destruct (unifyRecord_returns raw loc Eloc) as [[rec |] E]; [eauto |].
  exfalso. revert E. unfold unifyRecord.
  destruct (unifyDate_returns raw loc Eloc) as [d ->].
  destruct (getProp_returns raw loc "location" "cause" Eloc) as [c ->].
  destruct (getProp_returns raw loc "location" "severity" Eloc) as [sv ->].
  destruct (getProp_returns raw loc "location" "area_burned" Eloc) as [ar ->].
  destruct (getProp_returns raw loc "location" "fire_id" Eloc) as [fid Efid].
  destruct (getProp_returns raw loc "location" "incident_name" Eloc) as [inc Einc].
  rewrite Eloc. simpl.
  destruct (getProp loc "latitude") as [[| | | | | |] |] eqn:E1;
    try discriminate Hla.
  destruct (getProp loc "longitude") as [[| | | | | |] |] eqn:E2;
    try discriminate Hlo.
  assert (Ht : truthy loc = true).
  { destruct loc; try discriminate E1; try reflexivity. }
  rewrite Ht. simpl. rewrite Efid. simpl. rewrite Einc. simpl. discriminate.
Qed.

Lemma unifyRecord_no_throw (raw : JSValue) :
  raw <> JNull -> raw <> JUndefined -> unifyRecord raw <> Throws.
Proof.
  intros H1 H2 E.
  assert (Hl : exists loc, getProp raw "location" = Return loc)
    by (destruct raw; try contradiction; eexists; reflexivity).
  destruct Hl as [loc Hl].
  destruct (unifyRecord_returns raw loc Hl) as [r Hr]. congruence.
Qed.
End LoadingFacts.

(** X13: the three outcomes of [unifyRecord]: it throws exactly on
    [null] and [undefined]; otherwise it drops the entry exactly when a
    coordinate is not a number, and admits it, with these coordinates,
    whatever the other properties of the entry are. *)
Theorem unifyRecord_outcomes {R : Runtime} (raw : JSValue) :
  match unifyRecord raw with
  | Throws => raw = JNull \/ raw = JUndefined
  | Return None =>
      raw <> JNull /\ raw <> JUndefined
      /\ (rawCoordinate raw "latitude" = None
          \/ rawCoordinate raw "longitude" = None)
  | Return (Some rec) =>
      raw <> JNull /\ raw <> JUndefined
      /\ rawCoordinate raw "latitude" = Some (latitude (fire_location rec))
      /\ rawCoordinate raw "longitude" = Some (longitude (fire_location rec))
  end.
Proof.
  destruct raw as [| | b | n | s | items | fields] eqn:Eraw;
    try (right; reflexivity); try (left; reflexivity); rewrite <- Eraw.
  all: assert (Hn : raw <> JNull /\ raw <> JUndefined)
         by (subst raw; split; discriminate).
  all: assert (Hl : exists loc, getProp raw "location" = Return loc)
         by (subst raw; eexists; reflexivity).
  all: clear Eraw; destruct Hn as [Hn1 Hn2]; destruct Hl as [loc Hl].
  all: destruct (unifyRecord_returns raw loc Hl) as [[rec |] E]; rewrite E.
  all: try (destruct (unifyRecord_admitted raw rec E) as (H1 & H2 & _);
            repeat split; assumption).
  all: split; [exact Hn1 |]; split; [exact Hn2 |].
  all: destruct (rawCoordinate raw "latitude") as [la |] eqn:Ela; [| now left].
  all: destruct (rawCoordinate raw "longitude") as [lo |] eqn:Elo; [| now right].
  all: destruct (unifyRecord_numeric raw la lo Ela Elo) as [rec E'].
  all: rewrite E in E'; discriminate E'.
Qed.

(** X14: the first load appends to the store, file after file in the
    order of the list of files, what each file gives on its own; a file
    that cannot be read or parsed gives nothing and takes nothing from the
    others.  A store that is loaded is left as it is. *)
Theorem load_appends_file_by_file {R : Runtime} (disk : Disk) (st : Store) :
  historicalData (loadHistoricalWildfireData disk st)
  = (if loaded st then historicalData st
     else historicalData st ++ concat (map (loadFile disk []) files))
  /\ loaded (loadHistoricalWildfireData disk st) = true
  /\ (forall fileName, disk fileName = None -> loadFile disk [] fileName = []).
Proof.
  unfold loadHistoricalWildfireData. destruct (loaded st) eqn:E.
  - repeat split; [exact E |]. intros f Hf. unfold loadFile. now rewrite Hf.
  - cbn [historicalData loaded]. split; [apply loadFiles_from |].
    split; [reflexivity |].
    intros f Hf. unfold loadFile. now rewrite Hf.
Qed.

(** X15: what a file gives: the admitted entries in their order, up to
    the first entry that is [null], on which [unifyRecord] throws and
    which ends the file; the entries after it are not read. *)
Theorem pushRecords_until_null {R : Runtime} :
  (forall rawArray,
     Forall (fun raw => raw <> JNull /\ raw <> JUndefined) rawArray ->
     pushRecords rawArray []
     = flat_map (fun raw => match unifyRecord raw with
                            | Return (Some rec) => [rec]
                            | _ => []
                            end) rawArray)
  /\ (forall before after data,
        pushRecords (before ++ JNull :: after) data = pushRecords before data).
Proof.
  split.
  - induction 1 as [| raw rest [Hn1 Hn2] _ IH]; [reflexivity |].
    simpl. pose proof (unifyRecord_no_throw raw Hn1 Hn2) as Ho.
    destruct (unifyRecord raw) as [[rec |] |].
    + rewrite pushRecords_from, IH. reflexivity.
    + exact IH.
    + contradiction.
  - induction before as [| raw rest IH]; intros after data; [reflexivity |].
    simpl. destruct (unifyRecord raw) as [[rec |] |]; [apply IH | apply IH |].
    reflexivity.
Qed.

(** X16: the store is loaded by the first call and never again: a later
    call leaves it as it is and answers as if given the files of the first
    call, whatever is on the disk by then. *)
Theorem store_loaded_once {R : Runtime} (disk disk' : Disk) (now now' : JSDate)
    (feed feed' : FeedResponse) (st : Store) (env env' : EnvironmentalData) :
  let st1 := snd (getWildfireRisk disk now feed st env) in
  loaded st1 = true
  /\ snd (getWildfireRisk disk' now' feed' st1 env') = st1
  /\ fst (getWildfireRisk disk' now' feed' st1 env')
     = fst (getWildfireRisk disk now' feed' st env').
Proof.
  intros st1.
  assert (E1 : st1 = loadHistoricalWildfireData disk st)
    by apply getWildfireRisk_store.
  assert (Hl : loaded st1 = true).
  { rewrite E1. unfold loadHistoricalWildfireData.
    destruct (loaded st) eqn:E; [exact E | reflexivity]. }
  assert (E2 : loadHistoricalWildfireData disk' st1 = st1).
  { unfold loadHistoricalWildfireData. now rewrite Hl. }
  split; [exact Hl |]. split.
  - now rewrite getWildfireRisk_store.
  - rewrite !getWildfireRisk_result. unfold finalScore. rewrite E2, E1.
    reflexivity.
Qed.

(** ** The active-fire check on well-formed feeds *)

(** X17: for a point with coordinates between -9999 and 9999 and a feed
    on which no box computation throws, the penalty is 5 exactly when the
    point lies within the extent (least to greatest latitude and least to
    greatest longitude) of the positions of some feature: the first ring
    of a polygon, all rings of a multi-polygon. *)
Theorem active_fire_penalty_by_extent (features : list GeoJsonFeature)
    (env : EnvironmentalData) :
  let la := lat (location env) in
  let lo := lng (location env) in
  -9999 < la -> la < 9999 -> -9999 < lo -> lo < 9999 ->
  Forall (fun f => featureThrows f = false) features ->
  (getActiveFirePenalty (HttpResponse true (Return (Some features))) env = 5%Z
   <-> exists f coords,
         In f features /\ featureCoordinates f = Some coords
         /\ inExtent la lo (positionsOf coords)).
Proof.
  intros la lo H1 H2 H3 H4 Hall.
  assert (Hhit : getActiveFirePenalty (HttpResponse true (Return (Some features))) env
                 = 5%Z
                 <-> scanFeatures la lo features = Return 5%Z).
  { unfold getActiveFirePenalty, tryActiveFirePenalty. simpl. fold la lo.
    destruct (scanFeatures_values la lo features) as [-> | [-> | ->]];
      split; congruence. }
  rewrite Hhit, scanFeatures_hit. split.
  - intros (before & f & after & -> & Hf & _).
    apply (featureContains_extent la lo f H1 H2 H3 H4) in Hf
      as (coords & Hc & _ & Hin).
    exists f, coords. split; [| split; [exact Hc | exact Hin]].
    apply in_or_app. right. now left.
  - intros (f & coords & Hin & Hc & He).
    apply in_split in Hin as (before & after & ->).
    exists before, f, after. split; [reflexivity |].
    apply Forall_app in Hall as [Hb Ha]. split; [| exact Hb].
    apply (featureContains_extent la lo f H1 H2 H3 H4).
    exists coords. split; [exact Hc |]. split; [| exact He].
    now apply Forall_cons_iff in Ha as [Hf _].
Qed.

Lemma active_fire_penalty_by_extent_witness :
  let features := [Sample.polygonFeature [Sample.square 0 10]] in
  let env := Sample.envAt 20 5 5 in
  getActiveFirePenalty (HttpResponse true (Return (Some features))) env = 5%Z
  <-> exists f coords,
        In f features /\ featureCoordinates f = Some coords
        /\ inExtent 5 5 (positionsOf coords).
Proof.
  intros features env.
  apply (active_fire_penalty_by_extent features env); try reflexivity.
  repeat constructor.
Defined.

(** X18: a feature without positions never gives the penalty, wherever
    the point is: a feature without geometry or coordinates, a geometry of
    another type than [Polygon] and [MultiPolygon], a polygon whose first
    ring is empty, a multi-polygon without positions. *)
Theorem feature_without_positions_never_matches (la lo : Q) (f : GeoJsonFeature) :
  (featureCoordinates f = None
   \/ exists coords, featureCoordinates f = Some coords /\ positionsOf coords = []) ->
  featureContains la lo f = false.
Proof.
  unfold featureContains. intros [-> | (coords & -> & Hp)]; [reflexivity |].
  destruct (getBoundingBox coords) as [box |] eqn:E; [| reflexivity].
  apply getBoundingBox_positions in E. rewrite Hp in E. subst box.
  change (fold_left extendBox [] initialBox) with (9999, 9999, -9999, -9999).
  destruct (isPointInBoundingBox la lo (9999, 9999, -9999, -9999)) eqn:E;
    [| reflexivity].
  apply isPointInBoundingBox_iff in E. exfalso. lra.
Qed.

Lemma feature_without_positions_never_matches_witness :
  featureContains 50 (-120)
    {| geometry := Some {| coordinates := Some (OtherCoordinates "Point") |} |}
  = false.
Proof.
  apply feature_without_positions_never_matches.
  right. exists (OtherCoordinates "Point"). split; reflexivity.
Defined.

(** ** The adaptive radius and the records far away *)

Section RadiusFacts.
Context {R : Runtime}.

Lemma adaptiveRadius_values (env : EnvironmentalData)
    (hist : list HistoricalFireRecord) :
  adaptiveRadius env hist = 30%Z \/ adaptiveRadius env hist = 50%Z
  \/ adaptiveRadius env hist = 75%Z.
Proof. unfold adaptiveRadius. cbv zeta. by_branches; auto. Qed.

(** Filtering by a distance after filtering by a larger one. *)
Lemma filter_within_within (env : EnvironmentalData) (r r' : Q)
    (hist : list HistoricalFireRecord) :
  r <= r' ->
  List.filter (fun f => distanceTo env f <=? r)
    (List.filter (fun f => distanceTo env f <=? r') hist)
  = List.filter (fun f => distanceTo env f <=? r) hist.
Proof.
  intros Hr. induction hist as [| f rest IH]; [reflexivity |]. simpl.
  destruct (num_le_reflect (distanceTo env f) r') as [H' | H'].
  - simpl. now rewrite IH.
  - rewrite IH. destruct (num_le_reflect (distanceTo env f) r); [lra | reflexivity].
Qed.
End RadiusFacts.

(** X19: more records never widen the search: the adaptive radius for a
    collection with added records is at most the radius for the collection
    without them. *)
Theorem adaptiveRadius_antitone {R : Runtime} (env : EnvironmentalData)
    (hist more : list HistoricalFireRecord) :
  (adaptiveRadius env (more ++ hist) <= adaptiveRadius env hist)%Z.
Proof.
  unfold adaptiveRadius. cbv zeta. rewrite List.filter_app, List.length_app.
  set (n := length (List.filter _ hist)).
  set (k := length (List.filter _ more)).
  destruct (Nat.ltb_spec 20 (k + n)), (Nat.ltb_spec 20 n); try lia;
    destruct (Nat.ltb_spec (k + n) 5), (Nat.ltb_spec n 5); lia.
Qed.

(** X20: records more than 75 km from the point have no part in the
    assessment: the result for a loaded store is the result for the store
    without them. *)
Theorem far_records_do_not_matter {R : Runtime} (disk : Disk) (now : JSDate)
    (feed : FeedResponse) (env : EnvironmentalData)
    (hist : list HistoricalFireRecord) :
  let near := List.filter (fun f => distanceTo env f <=? 75) hist in
  fst (getWildfireRisk disk now feed
         {| historicalData := hist; loaded := true |} env)
  = fst (getWildfireRisk disk now feed
           {| historicalData := near; loaded := true |} env).
Proof.
  intros near.
  assert (Hr : adaptiveRadius env near = adaptiveRadius env hist).
  { unfold adaptiveRadius, near. cbv zeta.
    rewrite (filter_within_within env 50 75 hist) by discriminate. reflexivity. }
  assert (Hn : nearestFiresOf env near (adaptiveRadius env hist)
               = nearestFiresOf env hist (adaptiveRadius env hist)).
  { unfold nearestFiresOf, near. cbv zeta.
    rewrite filter_within_within; [reflexivity |].
    destruct (adaptiveRadius_values env hist) as [-> | [-> | ->]]; discriminate. }
  rewrite !getWildfireRisk_result. unfold finalScore.
  change (loadHistoricalWildfireData disk {| historicalData := hist; loaded := true |})
    with {| historicalData := hist; loaded := true |}.
  change (loadHistoricalWildfireData disk {| historicalData := near; loaded := true |})
    with {| historicalData := near; loaded := true |}.
  cbn [historicalData]. cbv zeta. rewrite Hr, Hn. reflexivity.
Qed.

(** ** The store of danger zones *)

Lemma spreadZones_new (old : option DangerZone) (newRecord : DangerZone) :
  spreadZones old newRecord = newRecord.
Proof. now destruct newRecord. Qed.

Lemma findIndex_from_none {A : Type} (p : A -> bool) (l : list A) :
  forall i, (0 <= i)%Z ->
    (findIndex_from p l i = (-1)%Z <-> Forall (fun x => p x = false) l).
Proof.
  induction l as [| x t IH]; intros i Hi; simpl.
  - split; [constructor | reflexivity].
  - destruct (p x) eqn:E.
    + split; [lia |]. intros H. apply Forall_cons_iff in H as [H _]. congruence.
    + rewrite IH by lia. split.
      * intros H. now constructor.
      * intros H. now apply Forall_cons_iff in H as [_ H].
Qed.

Lemma findIndex_from_first {A : Type} (p : A -> bool) (before : list A) :
  forall (x : A) (after : list A) (i : Z),
    Forall (fun y => p y = false) before -> p x = true ->
    findIndex_from p (before ++ x :: after) i = (i + Z.of_nat (length before))%Z.
Proof.
  induction before as [| b rest IH]; intros x after i Hb Hx; simpl.
  - rewrite Hx. lia.
  - apply Forall_cons_iff in Hb as [Hb Hrest]. rewrite Hb.
    rewrite IH by assumption. lia.
Qed.

(** X21: what the store of danger zones does with a new record: without
    a zone less than 5 km away it puts the record in front and keeps the
    first 49 of the zones; otherwise it replaces the first zone less than 5
    km away by the record and leaves every other zone, nearer ones
    included, where it is. *)
Theorem storeDangerZone_update_or_insert {R : Runtime} (newRecord : DangerZone)
    (dangerZones : list DangerZone) :
  (Forall (fun z => withinFiveKm newRecord z = false) dangerZones ->
   storeDangerZone newRecord dangerZones = newRecord :: firstn 49 dangerZones)
  /\ (forall before z after,
        dangerZones = before ++ z :: after ->
        Forall (fun y => withinFiveKm newRecord y = false) before ->
        withinFiveKm newRecord z = true ->
        storeDangerZone newRecord dangerZones = before ++ newRecord :: after).
Proof.
  unfold storeDangerZone, findIndex. cbv zeta. split.
  - intros H. apply (findIndex_from_none _ _ 0%Z) in H; [| lia].
    rewrite H. reflexivity.
  - intros before z after -> Hb Hz.
    rewrite (findIndex_from_first _ before z after 0%Z Hb Hz).
    rewrite Z.add_0_l, spreadZones_new.
    destruct (Z.eqb_spec (Z.of_nat (length before)) (-1)); [lia |].
    simpl negb. cbv iota. rewrite Nat2Z.id.
    replace (length before) with (length before + 0)%nat by lia.
    now rewrite insert_app_r.
Qed.

(** X22: after a record is stored it is in the store; a store of at most
    50 zones stays one, and the store never grows by more than one zone. *)
Theorem storeDangerZone_bounded {R : Runtime} (newRecord : DangerZone)
    (dangerZones : list DangerZone) :
  In newRecord (storeDangerZone newRecord dangerZones)
  /\ (length (storeDangerZone newRecord dangerZones) <= S (length dangerZones))%nat
  /\ ((length dangerZones <= 50)%nat ->
      (length (storeDangerZone newRecord dangerZones) <= 50)%nat).
Proof.
  unfold storeDangerZone. cbv zeta. rewrite spreadZones_new.
  set (i := findIndex (withinFiveKm newRecord) dangerZones).
  destruct (Z.eqb_spec i (-1)) as [E | E]; simpl negb; cbv iota.
  - unfold slice0. split; [now left |].
    simpl length. rewrite length_firstn. split; lia.
  - rewrite length_insert. split; [| split; lia].
    assert (Hsome : ~ Forall (fun z => withinFiveKm newRecord z = false) dangerZones).
    { intros H. apply (findIndex_from_none _ _ 0%Z) in H; [| lia]. contradiction. }
    apply not_Forall_Exists in Hsome; [| intros z; apply _].
    assert (Hsplit : exists before z after,
               dangerZones = before ++ z :: after
               /\ Forall (fun y => withinFiveKm newRecord y = false) before
               /\ withinFiveKm newRecord z = true).
    { clear E i. induction dangerZones as [| z0 rest IH].
      - now apply Exists_nil in Hsome.
      - destruct (withinFiveKm newRecord z0) eqn:Ez.
        + exists [], z0, rest. repeat split; [constructor | exact Ez].
        + apply Exists_cons in Hsome as [Hz | Hrest]; [congruence |].
          destruct (IH Hrest) as (b & z & a & -> & Hb & Hz).
          exists (z0 :: b), z, a. repeat split; [now constructor | exact Hz]. }
    destruct Hsplit as (before & z & after & -> & Hb & Hz).
    unfold i, findIndex.
    rewrite (findIndex_from_first _ before z after 0%Z Hb Hz).
    rewrite Z.add_0_l, Nat2Z.id.
    replace (length before) with (length before + 0)%nat by lia.
    rewrite insert_app_r. apply in_or_app. right. now left.
Qed.
